(** * Option payoff and statistics engine: a shallow embedding

    This development embeds the pricing core of the options simulator
    (the payoff engine, the heuristic Greeks, the premium estimator, the
    strategy factory, the curve generator and the statistics extractor)
    and proves the properties its specification states.

    Numbers.  The source computes with JavaScript numbers.  A [number] here
    is either a real, one of the two infinities, or NaN; the arithmetic on
    the real part is exact (rounding and overflow of binary64 are not
    modelled, and the two zeros are identified: zero is the positive zero).
    What is modelled is what the code can observe on real inputs: a square
    root of a negative number and [0/0] are NaN, a division of a non-zero
    number by zero is infinite, [Math.max()] of nothing is [-Infinity],
    every comparison with NaN is false, and [0] and NaN are falsy.

    Rounding.  Module [B64] embeds the payoff engine a second time, over the
    binary64 numbers of the machine, where every operation rounds.  It is
    used to evaluate the code as it runs on given inputs: what the exact
    model proves of a sum or a product holds of the code up to rounding
    only, unless both sides round in the same order. *)

From Stdlib Require Import String.
From Stdlib Require Import Reals Lra Lia ZArith List Permutation Sorted Bool Arith.
From Stdlib Require PrimFloat.
Import ListNotations.

Open Scope R_scope.

(** ** JavaScript numbers *)

Inductive number : Type :=
| NaN : number
| NegInf : number
| PosInf : number
| Fin : R -> number.

Declare Scope num_scope.
Delimit Scope num_scope with num.
Bind Scope num_scope with number.

(** Boolean tests on reals, through the decision procedures of [R]. *)
Definition Rltb (a b : R) : bool := if Rlt_dec a b then true else false.
Definition Rleb (a b : R) : bool := if Rle_dec a b then true else false.
Definition Reqb (a b : R) : bool := if Req_dec_T a b then true else false.

(** Unary minus. *)
Definition nneg (a : number) : number :=
  match a with
  | NaN => NaN
  | NegInf => PosInf
  | PosInf => NegInf
  | Fin x => Fin (- x)
  end.

(** [a + b]. *)
Definition nadd (a b : number) : number :=
  match a, b with
  | NaN, _ | _, NaN => NaN
  | PosInf, NegInf | NegInf, PosInf => NaN
  | PosInf, _ | _, PosInf => PosInf
  | NegInf, _ | _, NegInf => NegInf
  | Fin x, Fin y => Fin (x + y)
  end.

(** [a - b]. *)
Definition nsub (a b : number) : number := nadd a (nneg b).

(** The infinity with the sign of [x] times the sign given by [pos];
    NaN when [x] is zero. *)
Definition signed_inf (pos : bool) (x : R) : number :=
  if Rltb 0 x then (if pos then PosInf else NegInf)
  else if Rltb x 0 then (if pos then NegInf else PosInf)
  else NaN.

(** [a * b]. *)
Definition nmul (a b : number) : number :=
  match a, b with
  | NaN, _ | _, NaN => NaN
  | PosInf, PosInf | NegInf, NegInf => PosInf
  | PosInf, NegInf | NegInf, PosInf => NegInf
  | PosInf, Fin y => signed_inf true y
  | NegInf, Fin y => signed_inf false y
  | Fin x, PosInf => signed_inf true x
  | Fin x, NegInf => signed_inf false x
  | Fin x, Fin y => Fin (x * y)
  end.

(** [a / b].  A finite number over an infinity is zero; over zero it is the
    infinity of its sign, and [0/0] is NaN. *)
Definition ndiv (a b : number) : number :=
  match a, b with
  | NaN, _ | _, NaN => NaN
  | Fin x, Fin y => if Reqb y 0 then signed_inf true x else Fin (x / y)
  | Fin _, _ => Fin 0
  | PosInf, Fin y => if Rltb y 0 then NegInf else PosInf
  | NegInf, Fin y => if Rltb y 0 then PosInf else NegInf
  | _, _ => NaN
  end.

Infix "+" := nadd : num_scope.
Infix "-" := nsub : num_scope.
Infix "*" := nmul : num_scope.
Infix "/" := ndiv : num_scope.
Notation "- a" := (nneg a) : num_scope.

(** [a <= b], [a < b] and [a > b] as the source's conditions evaluate them:
    false as soon as one side is NaN. *)
Definition nleb (a b : number) : bool :=
  match a, b with
  | NaN, _ | _, NaN => false
  | NegInf, _ | _, PosInf => true
  | _, NegInf | PosInf, _ => false
  | Fin x, Fin y => Rleb x y
  end.

Definition nltb (a b : number) : bool :=
  match a, b with
  | NaN, _ | _, NaN => false
  | NegInf, NegInf | PosInf, PosInf => false
  | NegInf, _ | _, PosInf => true
  | _, NegInf | PosInf, _ => false
  | Fin x, Fin y => Rltb x y
  end.

Definition ngtb (a b : number) : bool := nltb b a.

Definition nle (a b : number) : Prop := nleb a b = true.
Definition nlt (a b : number) : Prop := nltb a b = true.

Infix "<=?" := nleb (at level 70) : num_scope.
Infix "<?" := nltb (at level 70) : num_scope.
Infix ">?" := ngtb (at level 70) : num_scope.
Infix "<=" := nle : num_scope.
Infix "<" := nlt : num_scope.

(** Truthiness of a number: [0] and NaN are falsy. *)
Definition truthy (a : number) : bool :=
  match a with
  | NaN => false
  | Fin x => negb (Reqb x 0)
  | _ => true
  end.

(** [a || b] on an optional number ([None] is [undefined]). *)
Definition or_else (a : option number) (b : number) : number :=
  match a with
  | Some v => if truthy v then v else b
  | None => b
  end.

(** A parameter with a default value: the default replaces [undefined]
    only. *)
Definition default_to (d : number) (a : option number) : number :=
  match a with
  | Some v => v
  | None => d
  end.

Module Math.

Definition abs (a : number) : number :=
  match a with
  | NaN => NaN
  | NegInf | PosInf => PosInf
  | Fin x => Fin (Rabs x)
  end.

(** [Math.max(a, b)]: NaN as soon as one argument is. *)
Definition max (a b : number) : number :=
  match a, b with
  | NaN, _ | _, NaN => NaN
  | PosInf, _ | _, PosInf => PosInf
  | NegInf, c | c, NegInf => c
  | Fin x, Fin y => Fin (Rmax x y)
  end.

Definition min (a b : number) : number :=
  match a, b with
  | NaN, _ | _, NaN => NaN
  | NegInf, _ | _, NegInf => NegInf
  | PosInf, c | c, PosInf => c
  | Fin x, Fin y => Fin (Rmin x y)
  end.

(** [Math.max(...l)] and [Math.min(...l)]: with no argument they are
    [-Infinity] and [Infinity]. *)
Definition max_list (l : list number) : number := fold_left max l NegInf.
Definition min_list (l : list number) : number := fold_left min l PosInf.

Definition sqrt (a : number) : number :=
  match a with
  | NaN | NegInf => NaN
  | PosInf => PosInf
  | Fin x => if Rltb x 0 then NaN else Fin (R_sqrt.sqrt x)
  end.

Definition exp (a : number) : number :=
  match a with
  | NaN => NaN
  | NegInf => Fin 0
  | PosInf => PosInf
  | Fin x => Fin (Rtrigo_def.exp x)
  end.

(** [Math.pow(a, n)] for a natural exponent. *)
Fixpoint pow (a : number) (n : nat) : number :=
  match n with
  | O => Fin 1
  | S O => a
  | S n' => nmul a (pow a n')
  end.

(** [Math.ceil]: the least integer not below the argument. *)
Definition ceil (a : number) : number :=
  match a with
  | Fin x => Fin (IZR (1 - up (- x)))
  | _ => a
  end.

End Math.

(** A natural number used as a number (a loop index, a length). *)
Definition of_nat (n : nat) : number := Fin (IZR (Z.of_nat n)).

Definition is_finite (a : number) : bool :=
  match a with
  | Fin _ => true
  | _ => false
  end.

(** ** Data model *)

Inductive OptionType : Type := call | put.
Inductive Action : Type := buy | sell.

Record OptionLeg : Type := mkLeg {
  type : OptionType;
  action : Action;
  strike : number;
  premium : number;
  quantity : number
}.

Record Strategy : Type := mkStrategy {
  name : string;
  legs : list OptionLeg
}.

Record CurvePoint : Type := mkPoint {
  price : number;
  payoff : number;
  delta : number;
  gamma : number;
  theta : number;
  vega : number
}.

Record StrategyStats : Type := mkStats {
  maxProfit : number;
  maxLoss : number;
  breakeven : list number;
  profitProbability : number
}.

(** ** Payoff engine *)

(** [leg.action === 'buy' ? 1 : -1], the sign a leg enters a total with. *)
Definition multiplier_of (leg : OptionLeg) : number :=
  match action leg with buy => Fin 1 | sell => Fin (-1) end.

(** Payoff of a single option leg at expiration. *)
Definition calculateLegPayoff (leg : OptionLeg) (underlyingPrice : number)
  : number :=
  let intrinsicValue :=
    match type leg with
    | call => Math.max (Fin 0) (underlyingPrice - strike leg)
    | put => Math.max (Fin 0) (strike leg - underlyingPrice)
    end in
  let multiplier := multiplier_of leg in
  let premiumCost :=
    match action leg with buy => (- premium leg)%num | sell => premium leg end in
  ((intrinsicValue * multiplier + premiumCost) * quantity leg * Fin 100)%num.

(** Total strategy payoff: [legs.reduce] from [0]. *)
Definition calculateStrategyPayoff (strategy : Strategy)
  (underlyingPrice : number) : number :=
  fold_left (fun total leg => total + calculateLegPayoff leg underlyingPrice)%num
            (legs strategy) (Fin 0).

(** ** Greeks *)

Definition calculateDelta (strategy : Strategy) (price currentPrice : number)
  : number :=
  fold_left (fun totalDelta leg =>
    let moneyness := (price / strike leg)%num in
    let x := ((price - strike leg) / (currentPrice * Fin 0.1))%num in
    let legDelta :=
      match type leg with
      | call => (Fin 1 / (Fin 1 + Math.exp (- x)))%num
      | put => (Fin (-1) / (Fin 1 + Math.exp x))%num
      end in
    let multiplier := multiplier_of leg in
    (totalDelta + legDelta * multiplier * quantity leg)%num)
  (legs strategy) (Fin 0).

Definition calculateGamma (strategy : Strategy) (price currentPrice : number)
  : number :=
  fold_left (fun totalGamma leg =>
    let distanceFromStrike := Math.abs (price - strike leg) in
    let normalizedDistance :=
      (distanceFromStrike / (currentPrice * Fin 0.1))%num in
    let legGamma :=
      (Math.exp (- Math.pow normalizedDistance 2)%num * Fin 0.02)%num in
    let multiplier := multiplier_of leg in
    (totalGamma + legGamma * multiplier * quantity leg)%num)
  (legs strategy) (Fin 0).

Definition calculateTheta (strategy : Strategy) (price currentPrice : number)
  (daysToExpiration : option number) : number :=
  let daysToExpiration := default_to (Fin 30) daysToExpiration in
  fold_left (fun totalTheta leg =>
    let timeEffect := Math.sqrt (daysToExpiration / Fin 30) in
    let distanceFromStrike := Math.abs (price - strike leg) in
    let atmFactor :=
      Math.exp (- Math.pow (distanceFromStrike / currentPrice) 2 * Fin 2)%num in
    let baseTheta :=
      (- premium leg * Fin 0.03 * atmFactor * timeEffect)%num in
    let multiplier := multiplier_of leg in
    (totalTheta + baseTheta * multiplier * quantity leg)%num)
  (legs strategy) (Fin 0).

Definition calculateVega (strategy : Strategy) (price currentPrice : number)
  (daysToExpiration : option number) : number :=
  let daysToExpiration := default_to (Fin 30) daysToExpiration in
  fold_left (fun totalVega leg =>
    let distanceFromStrike := Math.abs (price - strike leg) in
    let atmFactor :=
      Math.exp (- Math.pow (distanceFromStrike / currentPrice) 2 * Fin 3)%num in
    let timeEffect := Math.sqrt (daysToExpiration / Fin 30) in
    let baseVega := (premium leg * Fin 0.15 * atmFactor * timeEffect)%num in
    let multiplier := multiplier_of leg in
    (totalVega + baseVega * multiplier * quantity leg)%num)
  (legs strategy) (Fin 0).

(** ** Curve generator *)

(** The sample of index [i]: the body of the loop of [generatePayoffData]. *)
Definition curve_point (strategy : Strategy) (currentPrice start stepSize : number)
  (i : nat) : CurvePoint :=
  let price := (start + of_nat i * stepSize)%num in
  let payoff := calculateStrategyPayoff strategy price in
  let delta := calculateDelta strategy price currentPrice in
  let gamma := calculateGamma strategy price currentPrice in
  let theta := calculateTheta strategy price currentPrice (Some (Fin 30)) in
  let vega := calculateVega strategy price currentPrice (Some (Fin 30)) in
  mkPoint price payoff delta gamma theta vega.

Definition generatePayoffData (strategy : Strategy) (currentPrice : number)
  (priceRange : option number) : list CurvePoint :=
  let priceRange := default_to (Fin 0.15) priceRange in
  let range := (currentPrice * priceRange)%num in
  let start := (currentPrice - range)%num in
  let end_ := (currentPrice + range)%num in
  let steps := 200%nat in
  let stepSize := ((end_ - start) / of_nat steps)%num in
  map (curve_point strategy currentPrice start stepSize) (seq 0 (S steps)).

(** ** Premium estimator *)

Definition calculateRealisticPremium (type : OptionType)
  (strike currentPrice : number) (daysToExpiration : option number) : number :=
  let daysToExpiration := default_to (Fin 30) daysToExpiration in
  let intrinsicValue :=
    match type with
    | call => Math.max (Fin 0) (currentPrice - strike)
    | put => Math.max (Fin 0) (strike - currentPrice)
    end in
  let timeToExpiration := (daysToExpiration / Fin 365)%num in
  let volatility := Fin 0.25 in
  let riskFreeRate := Fin 0.05 in
  let moneyness := (Math.abs (currentPrice - strike) / currentPrice)%num in
  let atmTimeValue :=
    (currentPrice * volatility * Math.sqrt timeToExpiration * Fin 0.4)%num in
  let moneynessFactor := Math.exp (- Math.pow (moneyness * Fin 5) 2)%num in
  let timeValue := (atmTimeValue * moneynessFactor)%num in
  let totalPremium := (intrinsicValue + timeValue)%num in
  Math.max (Fin 0.05) totalPremium.

(** ** Strategy factory *)

Definition createLongCallStrategy (strike currentPrice : number)
  (daysToExpiration premium : option number) : Strategy :=
  let daysToExpiration := default_to (Fin 30) daysToExpiration in
  let defaultPremium :=
    or_else premium
      (calculateRealisticPremium call strike currentPrice (Some daysToExpiration)) in
  mkStrategy "Long Call" [mkLeg call buy strike defaultPremium (Fin 1)].

Definition createBullCallSpreadStrategy (longStrike shortStrike currentPrice : number)
  (daysToExpiration : option number) : Strategy :=
  let daysToExpiration := default_to (Fin 30) daysToExpiration in
  let longPremium :=
    calculateRealisticPremium call longStrike currentPrice (Some daysToExpiration) in
  let shortPremium :=
    calculateRealisticPremium call shortStrike currentPrice (Some daysToExpiration) in
  mkStrategy "Bull Call Spread"
    [mkLeg call buy longStrike longPremium (Fin 1);
     mkLeg call sell shortStrike shortPremium (Fin 1)].

Definition createLongPutStrategy (strike currentPrice : number)
  (daysToExpiration premium : option number) : Strategy :=
  let daysToExpiration := default_to (Fin 30) daysToExpiration in
  let defaultPremium :=
    or_else premium
      (calculateRealisticPremium put strike currentPrice (Some daysToExpiration)) in
  mkStrategy "Long Put" [mkLeg put buy strike defaultPremium (Fin 1)].

Definition createShortCallStrategy (strike currentPrice : number)
  (daysToExpiration premium : option number) : Strategy :=
  let daysToExpiration := default_to (Fin 30) daysToExpiration in
  let defaultPremium :=
    or_else premium
      (calculateRealisticPremium call strike currentPrice (Some daysToExpiration)) in
  mkStrategy "Short Call" [mkLeg call sell strike defaultPremium (Fin 1)].

Definition createShortPutStrategy (strike currentPrice : number)
  (daysToExpiration premium : option number) : Strategy :=
  let daysToExpiration := default_to (Fin 30) daysToExpiration in
  let defaultPremium :=
    or_else premium
      (calculateRealisticPremium put strike currentPrice (Some daysToExpiration)) in
  mkStrategy "Short Put" [mkLeg put sell strike defaultPremium (Fin 1)].

Definition createBearCallSpreadStrategy (shortStrike longStrike currentPrice : number)
  (daysToExpiration : option number) : Strategy :=
  let daysToExpiration := default_to (Fin 30) daysToExpiration in
  let shortPremium :=
    calculateRealisticPremium call shortStrike currentPrice (Some daysToExpiration) in
  let longPremium :=
    calculateRealisticPremium call longStrike currentPrice (Some daysToExpiration) in
  mkStrategy "Bear Call Spread"
    [mkLeg call sell shortStrike shortPremium (Fin 1);
     mkLeg call buy longStrike longPremium (Fin 1)].

Definition createLongStraddleStrategy (strike currentPrice : number)
  (daysToExpiration : option number) : Strategy :=
  let daysToExpiration := default_to (Fin 30) daysToExpiration in
  let callPremium :=
    calculateRealisticPremium call strike currentPrice (Some daysToExpiration) in
  let putPremium :=
    calculateRealisticPremium put strike currentPrice (Some daysToExpiration) in
  mkStrategy "Long Straddle"
    [mkLeg call buy strike callPremium (Fin 1);
     mkLeg put buy strike putPremium (Fin 1)].

(** ** Statistics extractor *)

(** [a === b] on numbers: NaN is equal to nothing. *)
Definition strict_eqb (a b : number) : bool :=
  match a, b with
  | NegInf, NegInf | PosInf, PosInf => true
  | Fin x, Fin y => Reqb x y
  | _, _ => false
  end.

(** What reading a field of a missing array element would give; the loop
    below never reads past the end of [data]. *)
Definition no_point : CurvePoint := mkPoint NaN NaN NaN NaN NaN NaN.

(** One turn of the breakeven loop, at index [i]: the list of breakevens
    found so far, with the crossing between [data[i-1]] and [data[i]] pushed
    when there is one. *)
Definition breakeven_step (data : list CurvePoint) (breakevens : list number)
  (i : nat) : list number :=
  let prev := nth (i - 1) data no_point in
  let curr := nth i data no_point in
  if ((payoff prev <=? Fin 0) && (payoff curr >? Fin 0)
      || (payoff prev >? Fin 0) && (payoff curr <=? Fin 0))%num%bool
  then
    let ratio :=
      (Math.abs (payoff prev)
       / (Math.abs (payoff prev) + Math.abs (payoff curr)))%num in
    let breakeven := (price prev + ratio * (price curr - price prev))%num in
    breakevens ++ [breakeven]
  else breakevens.

(** The loop [for (let i = 1; i < data.length; i++)]. *)
Definition breakeven_loop (data : list CurvePoint) : list number :=
  fold_left (breakeven_step data) (seq 1 (length data - 1)) [].

Definition calculateStrategyStats (strategy : Strategy) (currentPrice : number)
  : StrategyStats :=
  let data := generatePayoffData strategy currentPrice None in
  let payoffs := map payoff data in
  let maxProfit := Math.max_list payoffs in
  let maxLoss := Math.min_list payoffs in
  let breakevens := breakeven_loop data in
  let profitablePoints :=
    length (filter (fun p => p >? Fin 0)%num payoffs) in
  let profitProbability :=
    (of_nat profitablePoints / of_nat (length payoffs) * Fin 100)%num in
  {| maxProfit := if strict_eqb maxProfit NegInf then PosInf else maxProfit;
     maxLoss := if strict_eqb maxLoss PosInf then NegInf else maxLoss;
     breakeven := breakevens;
     profitProbability := profitProbability |}.

(** ** The page: days to expiration, strategy selection, fallbacks *)

Inductive Sentiment : Type := BULLISH | BEARISH | NEUTRAL.

Record StrategyTemplate : Type := mkTemplate {
  templateName : string;
  sentiment : Sentiment;
  description : string
}.

(** The templates offered for selection. *)
Definition strategies : list StrategyTemplate :=
  [ mkTemplate "Long Call" BULLISH
      "The simplest strategy to realize a bullish outlook on the underlying instrument price.";
    mkTemplate "Short Call" BEARISH
      "Profit from a bearish outlook by selling call options.";
    mkTemplate "Long Put" BEARISH
      "Profit from declining stock prices with limited risk.";
    mkTemplate "Short Put" BULLISH
      "Generate income from selling put options on stocks you're willing to own.";
    mkTemplate "Bull Call Spread" BULLISH
      "Limited risk, limited reward strategy for moderately bullish outlook.";
    mkTemplate "Bear Call Spread" BEARISH
      "Profit from neutral to bearish price movement with defined risk.";
    mkTemplate "Bear Put Spread" BEARISH
      "Lower cost alternative to buying puts with limited upside.";
    mkTemplate "Bull Put Spread" BULLISH
      "Generate income from selling put spreads in bullish markets.";
    mkTemplate "Long Straddle" NEUTRAL
      "Profit from high volatility regardless of direction.";
    mkTemplate "Short Straddle" NEUTRAL
      "Profit from low volatility when price stays near strike." ].

(** Days to expiration, from the selected expiration (Unix seconds) and the
    value [now] of [Date.now()] (milliseconds). *)
Definition daysToExpiration (expiration : option number) (now : number)
  : number :=
  match expiration with
  | None => Fin 30
  | Some expiration =>
    if negb (truthy expiration) then Fin 30
    else
      let expirationDate := (expiration * Fin 1000)%num in
      let diffTime := Math.abs (expirationDate - now) in
      let diffDays :=
        Math.ceil (diffTime / (Fin 1000 * Fin 60 * Fin 60 * Fin 24))%num in
      Math.max (Fin 1) diffDays
  end.

(** The strategy built for the selected template; [None] is [null]. *)
Definition currentStrategy (selectedStrategy : option StrategyTemplate)
  (strike underlyingPrice daysToExpiration : number) : option Strategy :=
  match selectedStrategy with
  | None => None
  | Some selected =>
    let days := Some daysToExpiration in
    let named (s : string) := String.eqb (templateName selected) s in
    Some
      (if named "Long Call"%string then
         createLongCallStrategy strike underlyingPrice days None
       else if named "Short Call"%string then
         createShortCallStrategy strike underlyingPrice days None
       else if named "Long Put"%string then
         createLongPutStrategy strike underlyingPrice days None
       else if named "Short Put"%string then
         createShortPutStrategy strike underlyingPrice days None
       else if named "Bull Call Spread"%string then
         createBullCallSpreadStrategy strike (strike + Fin 5)%num
           underlyingPrice days
       else if named "Bear Call Spread"%string then
         createBearCallSpreadStrategy strike (strike + Fin 5)%num
           underlyingPrice days
       else if named "Long Straddle"%string then
         createLongStraddleStrategy strike underlyingPrice days
       else createLongCallStrategy strike underlyingPrice days None)
  end.

(** The curve drawn: that of the empty strategy when nothing is selected. *)
Definition payoffData (currentStrategy : option Strategy)
  (underlyingPrice : number) : list CurvePoint :=
  match currentStrategy with
  | None =>
    generatePayoffData (mkStrategy "Empty Strategy" []) underlyingPrice None
  | Some strategy => generatePayoffData strategy underlyingPrice None
  end.

(** The statistics shown: constants when nothing is selected. *)
Definition strategyStats (currentStrategy : option Strategy)
  (underlyingPrice : number) : StrategyStats :=
  match currentStrategy with
  | None => mkStats (Fin 0) (Fin 0) [] (Fin 0)
  | Some strategy => calculateStrategyStats strategy underlyingPrice
  end.

(** The breakeven shown, [strategyStats.breakeven[0] || 0]. *)
Definition shownBreakeven (stats : StrategyStats) : number :=
  or_else (nth_error (breakeven stats) 0) (Fin 0).

(** ** The chart: scaling a Greek onto the payoff axis *)

(** [s.toLowerCase()] on the ASCII letters. *)
Definition lower (c : Ascii.ascii) : Ascii.ascii :=
  let n := Ascii.nat_of_ascii c in
  if (65 <=? n)%nat && (n <=? 90)%nat then Ascii.ascii_of_nat (n + 32) else c.

Fixpoint toLowerCase (s : string) : string :=
  match s with
  | EmptyString => EmptyString
  | String c s' => String (lower c) (toLowerCase s')
  end.

Definition getGreekValue (dataPoint : CurvePoint) (selectedGreek : string)
  : number :=
  let g := toLowerCase selectedGreek in
  if String.eqb g "delta" then delta dataPoint
  else if String.eqb g "gamma" then gamma dataPoint
  else if String.eqb g "theta" then theta dataPoint
  else if String.eqb g "vega" then vega dataPoint
  else vega dataPoint.



(** ** The controls: the strike selected by default *)

(** [l.reduce(f)] with no initial value; [None] is the [TypeError] raised on
    an empty array. *)
Definition reduce1 {A : Type} (f : A -> A -> A) (l : list A) : option A :=
  match l with
  | [] => None
  | x :: rest => Some (fold_left f rest x)
  end.

(** The strike closest to the underlying price. *)
Definition closestStrike (strikes : list number) (underlyingPrice : number)
  : option number :=
  reduce1 (fun prev curr =>
             if (Math.abs (curr - underlyingPrice)
                 <? Math.abs (prev - underlyingPrice))%num
             then curr else prev)
          strikes.

(** A real number between [lo] and [hi]. *)
Definition within (lo hi : R) (v : number) : Prop :=
  match v with
  | Fin b => (lo <= b <= hi)%R
  | _ => False
  end.

(** ** The payoff engine over binary64 *)

Module B64.

Import PrimFloat.
#[local] Set Warnings "-inexact-float".
#[local] Open Scope float_scope.

Record OptionLeg : Type := mkLeg {
  type : OptionType;
  action : Action;
  strike : float;
  premium : float;
  quantity : float
}.

Record Strategy : Type := mkStrategy {
  name : string;
  legs : list OptionLeg
}.

(** [Math.max(a, b)]: NaN as soon as one argument is, and [+0] above
    [-0]. *)
Definition max (a b : float) : float :=
  if is_nan a then a
  else if is_nan b then b
  else if ltb a b then b
  else if ltb b a then a
  else if is_zero a then a + b
  else a.

Definition calculateLegPayoff (leg : OptionLeg) (underlyingPrice : float)
  : float :=
  let intrinsicValue :=
    match type leg with
    | call => max 0 (underlyingPrice - strike leg)
    | put => max 0 (strike leg - underlyingPrice)
    end in
  let multiplier := match action leg with buy => 1 | sell => -1 end in
  let premiumCost :=
    match action leg with buy => - premium leg | sell => premium leg end in
  (intrinsicValue * multiplier + premiumCost) * quantity leg * 100.

Definition calculateStrategyPayoff (strategy : Strategy)
  (underlyingPrice : float) : float :=
  fold_left (fun total leg => total + calculateLegPayoff leg underlyingPrice)
            (legs strategy) 0.

End B64.

(** ** Specification-level notions *)

(** The sum of a list of numbers. *)
Fixpoint sum_list (l : list number) : number :=
  match l with
  | [] => Fin 0
  | a :: l' => (a + sum_list l')%num
  end.

(** Intrinsic value of an option of the given type, on reals. *)
Definition intrinsic (ty : OptionType) (K cp : R) : R :=
  match ty with
  | call => Rmax 0 (cp - K)
  | put => Rmax 0 (K - cp)
  end.

(** The premium the specification gives, on reals:
    [max(0.05, intrinsic + cp*0.25*sqrt(d/365)*0.4*exp(-(5*|cp-K|/cp)^2))]. *)
Definition premium_formula (ty : OptionType) (K cp d : R) : R :=
  Rmax 0.05
    (intrinsic ty K cp
     + cp * 0.25 * sqrt (d / 365) * 0.4 * exp (- (5 * Rabs (cp - K) / cp) ^ 2)).

(** The same leg with its action flipped between buy and sell. *)
Definition flip_action (leg : OptionLeg) : OptionLeg :=
  mkLeg (type leg)
        (match action leg with buy => sell | sell => buy end)
        (strike leg) (premium leg) (quantity leg).

(** The premiums of the legs of a strategy, in order. *)
Definition premiums (S : Strategy) : list number := map premium (legs S).

(** Net debit of a two-leg spread: the premium of the first (long) leg less
    the premium of the second (short) leg. *)
Definition netDebit (S : Strategy) : number :=
  (nth 0 (premiums S) NaN - nth 1 (premiums S) NaN)%num.

(** The statistics extractor as the specification words it: maximum and
    minimum of the payoffs, one interpolated price for each pair of
    consecutive points on opposite sides of the [<= 0] / [> 0] partition,
    and the percentage of points with a positive payoff. *)

Fixpoint maximum (l : list number) : number :=
  match l with
  | [] => NegInf
  | x :: l' => Math.max x (maximum l')
  end.

Fixpoint minimum (l : list number) : number :=
  match l with
  | [] => PosInf
  | x :: l' => Math.min x (minimum l')
  end.

Definition consecutive_pairs (curve : list CurvePoint)
  : list (CurvePoint * CurvePoint) :=
  combine curve (tl curve).

Definition opposite_sides (pair : CurvePoint * CurvePoint) : bool :=
  let (prev, curr) := pair in
  ((payoff prev <=? Fin 0) && (payoff curr >? Fin 0)
   || (payoff prev >? Fin 0) && (payoff curr <=? Fin 0))%num%bool.

Definition interpolate (pair : CurvePoint * CurvePoint) : number :=
  let (prev, curr) := pair in
  (price prev
   + Math.abs (payoff prev)
     / (Math.abs (payoff prev) + Math.abs (payoff curr))
     * (price curr - price prev))%num.

Definition crossings (curve : list CurvePoint) : list number :=
  map interpolate (filter opposite_sides (consecutive_pairs curve)).

Definition extractStats (curve : list CurvePoint) : StrategyStats :=
  let best := maximum (map payoff curve) in
  let worst := minimum (map payoff curve) in
  let profitable := filter (fun pt => payoff pt >? Fin 0)%num curve in
  {| maxProfit := match best with NegInf => PosInf | _ => best end;
     maxLoss := match worst with PosInf => NegInf | _ => worst end;
     breakeven := crossings curve;
     profitProbability :=
       (Fin 100 * of_nat (length profitable) / of_nat (length curve))%num |}.

(** A leg, a strategy, whose numeric fields are real numbers. *)
Definition real_leg (leg : OptionLeg) : bool :=
  is_finite (strike leg) && is_finite (premium leg) && is_finite (quantity leg).

Definition real_strategy (S : Strategy) : bool := forallb real_leg (legs S).

(** What a pair of consecutive points contributes to the breakevens. *)
Definition found (pair : CurvePoint * CurvePoint) : list number :=
  if opposite_sides pair then [interpolate pair] else [].

(** A curve of real points whose prices never decrease, all at least [lo]. *)
Inductive asc_curve : R -> list CurvePoint -> Prop :=
| asc_nil : forall lo, asc_curve lo []
| asc_cons : forall lo x y pt rest,
    price pt = Fin x -> payoff pt = Fin y -> (lo <= x)%R ->
    asc_curve x rest -> asc_curve lo (pt :: rest).

(** A real number at least [lo]. *)
Definition at_least (lo : R) (v : number) : Prop :=
  match v with
  | Fin b => (lo <= b)%R
  | _ => False
  end.

(** A leg one of whose numeric fields is NaN. *)
Definition has_NaN (leg : OptionLeg) : bool :=
  match strike leg, premium leg, quantity leg with
  | NaN, _, _ | _, NaN, _ | _, _, NaN => true
  | _, _, _ => false
  end.

Definition not_infinite (a : number) : bool :=
  match a with
  | NegInf | PosInf => false
  | _ => true
  end.

(** No field of a leg of the strategy is an infinity: each is a real, or
    NaN as the factory produces on degenerate arguments. *)
Definition no_infinite_field (S : Strategy) : bool :=
  forallb (fun leg => not_infinite (strike leg) && not_infinite (premium leg)
                      && not_infinite (quantity leg)) (legs S).

(** The price of the sample of index [a] on the grid from [s] in steps of
    [h]. *)
Definition grid (s h : R) (a : nat) : R := s + IZR (Z.of_nat a) * h.

(** The logistic curve of the call Delta, on reals. *)
Definition sigmoid (x : R) : R := 1 / (1 + exp (- x)).

(** A leg of quantity 1 on a real strike whose premium is the estimate for
    its own type and strike, at current price [cp] and [d] days. *)
Definition estimated_leg (cp d : R) (leg : OptionLeg) : Prop :=
  exists K : R,
    strike leg = Fin K /\ quantity leg = Fin 1
    /\ premium leg = Fin (premium_formula (type leg) K cp d).

(** The templates the page has no constructor for. *)
Definition unsupported_templates : list string :=
  ["Bear Put Spread"; "Bull Put Spread"; "Short Straddle"]%string.

(** * Properties *)

(** ** Arithmetic of numbers *)

Lemma Rltb_true (a b : R) : (a < b)%R -> Rltb a b = true.
Proof. intros H. unfold Rltb. destruct (Rlt_dec a b); [reflexivity | contradiction]. Qed.

Lemma Rltb_false (a b : R) : (b <= a)%R -> Rltb a b = false.
Proof. intros H. unfold Rltb. destruct (Rlt_dec a b); [lra | reflexivity]. Qed.

Lemma Rleb_true (a b : R) : (a <= b)%R -> Rleb a b = true.
Proof. intros H. unfold Rleb. destruct (Rle_dec a b); [reflexivity | contradiction]. Qed.

Lemma Rleb_false (a b : R) : (b < a)%R -> Rleb a b = false.
Proof. intros H. unfold Rleb. destruct (Rle_dec a b); [lra | reflexivity]. Qed.

Lemma Reqb_true (a b : R) : a = b -> Reqb a b = true.
Proof. intros H. unfold Reqb. destruct (Req_dec_T a b); [reflexivity | contradiction]. Qed.

Lemma Reqb_false (a b : R) : a <> b -> Reqb a b = false.
Proof. intros H. unfold Reqb. destruct (Req_dec_T a b); [contradiction | reflexivity]. Qed.

Lemma Rltb_spec (a b : R) : Rltb a b = true <-> (a < b)%R.
Proof. unfold Rltb. destruct (Rlt_dec a b); split; intros; try easy. Qed.

Lemma Rleb_spec (a b : R) : Rleb a b = true <-> (a <= b)%R.
Proof. unfold Rleb. destruct (Rle_dec a b); split; intros; try easy. Qed.

(** Case analysis on every comparison of reals in sight. *)
Ltac rcases :=
  unfold Rltb, Rleb, Reqb, Rmax, Rmin, Rabs in *;
  repeat match goal with
  | |- context [Rlt_dec ?a ?b] => destruct (Rlt_dec a b)
  | |- context [Rle_dec ?a ?b] => destruct (Rle_dec a b)
  | |- context [Req_dec_T ?a ?b] => destruct (Req_dec_T a b)
  | |- context [Rcase_abs ?a] => destruct (Rcase_abs a)
  | H : context [Rlt_dec ?a ?b] |- _ => destruct (Rlt_dec a b)
  | H : context [Rle_dec ?a ?b] |- _ => destruct (Rle_dec a b)
  | H : context [Req_dec_T ?a ?b] |- _ => destruct (Req_dec_T a b)
  end.

(** Two finite numbers are equal when their values are. *)
Ltac fin_eq := try reflexivity; try discriminate; try (f_equal; lra).

(** ** The payoff engine *)

(** C1: a long call with strike [K], premium [Pr] and quantity 1 pays
    [-Pr*100] at every price [p <= K] and [(p - K - Pr)*100] at every price
    [p > K]; with [K = 100] and [Pr = 5] that is [-500] at [100] and [500]
    at [110]. *)
Theorem long_call_payoff (K Pr p : R) :
  let leg := mkLeg call buy (Fin K) (Fin Pr) (Fin 1) in
  ((p <= K)%R -> calculateLegPayoff leg (Fin p) = Fin (- Pr * 100)) /\
  ((p > K)%R -> calculateLegPayoff leg (Fin p) = Fin ((p - K - Pr) * 100)) /\
  calculateLegPayoff (mkLeg call buy (Fin 100) (Fin 5) (Fin 1)) (Fin 100)
    = Fin (-500) /\
  calculateLegPayoff (mkLeg call buy (Fin 100) (Fin 5) (Fin 1)) (Fin 110)
    = Fin 500.
Proof.
  unfold calculateLegPayoff, multiplier_of; cbn.
  repeat split; intros; rcases; fin_eq.
Qed.

Lemma long_call_payoff_witness :
  calculateLegPayoff (mkLeg call buy (Fin 100) (Fin 5) (Fin 1)) (Fin 100)
    = Fin (- 5 * 100) /\
  calculateLegPayoff (mkLeg call buy (Fin 100) (Fin 5) (Fin 1)) (Fin 110)
    = Fin ((110 - 100 - 5) * 100).
Proof.
  split.
  - apply (long_call_payoff 100 5 100). lra.
  - apply (long_call_payoff 100 5 110). lra.
Defined.

Lemma nadd_comm (a b : number) : (a + b = b + a)%num.
Proof. destruct a, b; cbn; fin_eq. Qed.

Lemma nadd_assoc (a b c : number) : (a + (b + c) = a + b + c)%num.
Proof. destruct a, b, c; cbn; fin_eq. Qed.

Lemma nadd_0_l (a : number) : (Fin 0 + a = a)%num.
Proof. destruct a; cbn; fin_eq. Qed.

Lemma nadd_0_r (a : number) : (a + Fin 0 = a)%num.
Proof. destruct a; cbn; fin_eq. Qed.

Lemma fold_left_nadd {A : Type} (f : A -> number) (l : list A) (a : number) :
  fold_left (fun total x => total + f x)%num l a
  = (a + sum_list (map f l))%num.
Proof.
  revert a. induction l as [|x l IH]; intros a; cbn.
  - now rewrite nadd_0_r.
  - now rewrite IH, nadd_assoc.
Qed.

Lemma calculateStrategyPayoff_sum (S : Strategy) (p : number) :
  calculateStrategyPayoff S p
  = sum_list (map (fun leg => calculateLegPayoff leg p) (legs S)).
Proof.
  unfold calculateStrategyPayoff.
  now rewrite fold_left_nadd, nadd_0_l.
Qed.

Lemma fold_left_map_nadd {A : Type} (f : A -> number) (l : list A)
  (a : number) :
  fold_left (fun total x => total + f x)%num l a
  = fold_left nadd (map f l) a.
Proof.
  revert a. induction l as [|x l IH]; intros a; cbn [map fold_left];
    [reflexivity | apply IH].
Qed.

(** C2 (amended): the payoff of a strategy is the sum of the payoffs of its
    legs, added from 0 in the order of the legs; exchanging the two legs of
    a two-leg strategy does not change it. *)
Theorem strategy_payoff_in_order (S : Strategy) (p : number) :
  calculateStrategyPayoff S p
  = fold_left nadd (map (fun leg => calculateLegPayoff leg p) (legs S)) (Fin 0)
  /\ forall (n n' : string) (a b : OptionLeg),
       calculateStrategyPayoff (mkStrategy n [a; b]) p
       = calculateStrategyPayoff (mkStrategy n' [b; a]) p.
Proof.
  split.
  - unfold calculateStrategyPayoff. apply fold_left_map_nadd.
  - intros n n' a b. unfold calculateStrategyPayoff. cbn [legs fold_left].
    rewrite !nadd_0_l. apply nadd_comm.
Qed.

(** ** The premium estimator *)

Lemma calculateRealisticPremium_real (ty : OptionType) (K cp d : R) :
  (0 < cp)%R -> (0 <= d)%R ->
  calculateRealisticPremium ty (Fin K) (Fin cp) (Some (Fin d))
  = Fin (premium_formula ty K cp d).
Proof.
  intros Hcp Hd. unfold calculateRealisticPremium, default_to. cbn.
  rewrite (Reqb_false cp 0), (Reqb_false 365 0) by lra. cbn.
  rewrite (Rltb_false (d / 365) 0)
    by (apply Rmult_le_pos; [lra | left; apply Rinv_0_lt_compat; lra]).
  unfold premium_formula, intrinsic.
  replace ((5 * Rabs (cp - K) / cp) ^ 2)%R
    with (Rabs (cp + - K) / cp * 5 * (Rabs (cp + - K) / cp * 5))%R
    by (unfold Rminus; field; lra).
  destruct ty; cbn; reflexivity.
Qed.

(** The estimate is not a number, hence not [>= 0.05], when the days to
    expiration are negative: the square root of the time to expiration is
    NaN and [Math.max] propagates it. *)
Lemma calculateRealisticPremium_negative_days :
  calculateRealisticPremium call (Fin 100) (Fin 100) (Some (Fin (-365))) = NaN
  /\ ~ (Fin 0.05
        <= calculateRealisticPremium call (Fin 100) (Fin 100) (Some (Fin (-365))))%num.
Proof.
  assert (E : calculateRealisticPremium call (Fin 100) (Fin 100)
                (Some (Fin (-365))) = NaN).
  { unfold calculateRealisticPremium, default_to. cbn.
    rewrite (Reqb_false 100 0), (Reqb_false 365 0) by lra. cbn.
    rewrite (Rltb_true (-365 / 365) 0) by lra. reflexivity. }
  split; [exact E | rewrite E; unfold nle; cbn; discriminate].
Qed.

(** C3 (amended): for every option type, every strike, every current price
    [> 0] and every number of days to expiration [>= 0], the estimated
    premium is [max(0.05, intrinsic + cp*0.25*sqrt(d/365)*0.4*
    exp(-(5*|cp-K|/cp)^2))], and so it is at least [0.05]. *)
Theorem calculateRealisticPremium_formula (ty : OptionType) (K cp d : R) :
  (0 < cp)%R -> (0 <= d)%R ->
  calculateRealisticPremium ty (Fin K) (Fin cp) (Some (Fin d))
  = Fin (Rmax 0.05
           (match ty with
            | call => Rmax 0 (cp - K)
            | put => Rmax 0 (K - cp)
            end
            + cp * 0.25 * sqrt (d / 365) * 0.4
              * exp (- (5 * Rabs (cp - K) / cp) ^ 2)))
  /\ (Fin 0.05
      <= calculateRealisticPremium ty (Fin K) (Fin cp) (Some (Fin d)))%num.
Proof.
  intros Hcp Hd. rewrite calculateRealisticPremium_real by assumption.
  split; [reflexivity |].
  unfold nle, premium_formula. cbn. apply Rleb_true, Rmax_l.
Qed.

Lemma calculateRealisticPremium_formula_witness :
  calculateRealisticPremium call (Fin 95) (Fin 100) (Some (Fin 30))
  = Fin (Rmax 0.05
           (Rmax 0 (100 - 95)
            + 100 * 0.25 * sqrt (30 / 365) * 0.4
              * exp (- (5 * Rabs (100 - 95) / 100) ^ 2)))
  /\ (Fin 0.05
      <= calculateRealisticPremium call (Fin 95) (Fin 100) (Some (Fin 30)))%num.
Proof.
  apply (calculateRealisticPremium_formula call 95 100 30); lra.
Defined.

(** ** The strategy factory *)

(** An explicit premium that is neither zero nor NaN is kept as it is. *)
Lemma or_else_truthy (v d : number) :
  truthy v = true -> or_else (Some v) d = v.
Proof. intros H. unfold or_else. now rewrite H. Qed.

Lemma single_leg_premium_supplied (K cp : number) (d : option number)
  (v : number) :
  truthy v = true ->
  premiums (createLongCallStrategy K cp d (Some v)) = [v]
  /\ premiums (createShortCallStrategy K cp d (Some v)) = [v]
  /\ premiums (createLongPutStrategy K cp d (Some v)) = [v]
  /\ premiums (createShortPutStrategy K cp d (Some v)) = [v].
Proof.
  intros H. unfold premiums; cbn. now rewrite !H.
Qed.

(** With the premium omitted, the estimate is used. *)
Lemma single_leg_premium_omitted (K cp : number) (d : option number) :
  let days := Some (default_to (Fin 30) d) in
  premiums (createLongCallStrategy K cp d None)
    = [calculateRealisticPremium call K cp days]
  /\ premiums (createShortCallStrategy K cp d None)
    = [calculateRealisticPremium call K cp days]
  /\ premiums (createLongPutStrategy K cp d None)
    = [calculateRealisticPremium put K cp days]
  /\ premiums (createShortPutStrategy K cp d None)
    = [calculateRealisticPremium put K cp days].
Proof. cbn. repeat split. Qed.

(** C4: an explicit premium of [0] is not kept: each of the four single-leg
    constructors replaces it by the estimate, which is at least [0.05]. *)
Theorem single_leg_premium_zero_replaced :
  premiums (createLongCallStrategy (Fin 100) (Fin 100) (Some (Fin 30)) (Some (Fin 0)))
    = [Fin (premium_formula call 100 100 30)]
  /\ premiums (createShortCallStrategy (Fin 100) (Fin 100) (Some (Fin 30)) (Some (Fin 0)))
    = [Fin (premium_formula call 100 100 30)]
  /\ premiums (createLongPutStrategy (Fin 100) (Fin 100) (Some (Fin 30)) (Some (Fin 0)))
    = [Fin (premium_formula put 100 100 30)]
  /\ premiums (createShortPutStrategy (Fin 100) (Fin 100) (Some (Fin 30)) (Some (Fin 0)))
    = [Fin (premium_formula put 100 100 30)]
  /\ (0.05 <= premium_formula call 100 100 30)%R
  /\ (0.05 <= premium_formula put 100 100 30)%R
  /\ premiums (createLongCallStrategy (Fin 100) (Fin 100) (Some (Fin 30)) (Some (Fin 0)))
     <> [Fin 0].
Proof.
  unfold premiums, createLongCallStrategy, createShortCallStrategy,
    createLongPutStrategy, createShortPutStrategy, or_else, truthy, default_to.
  rewrite (Reqb_true 0 0) by reflexivity. cbn [negb legs map premium].
  rewrite !calculateRealisticPremium_real by lra.
  assert (H : forall ty, (0.05 <= premium_formula ty 100 100 30)%R)
    by (intros ty; apply Rmax_l).
  repeat split; try apply H.
  intros E. injection E as E. specialize (H call). lra.
Qed.

(** NaN absorbs. *)
Lemma nmul_NaN_r (a : number) : (a * NaN)%num = NaN.
Proof. now destruct a. Qed.

Lemma nadd_NaN_r (a : number) : (a + NaN)%num = NaN.
Proof. now destruct a. Qed.

Lemma max_NaN_r (a : number) : Math.max a NaN = NaN.
Proof. now destruct a. Qed.

(** A negative number of days to expiration makes every estimate NaN. *)
Lemma calculateRealisticPremium_NaN (ty : OptionType) (K cp : number) (d : R) :
  (d < 0)%R -> calculateRealisticPremium ty K cp (Some (Fin d)) = NaN.
Proof.
  intros Hd. unfold calculateRealisticPremium, default_to.
  assert (E : Math.sqrt (Fin d / Fin 365) = NaN).
  { cbn. rewrite (Reqb_false 365 0) by lra. cbn.
    rewrite Rltb_true; [reflexivity |].
    assert (0 < / 365)%R by (apply Rinv_0_lt_compat; lra).
    unfold Rdiv. nra. }
  rewrite E, nmul_NaN_r. cbn [nmul]. now rewrite nadd_NaN_r, max_NaN_r.
Qed.

(** ** The bull call spread *)

(** With negative days to expiration both premiums are NaN, and so is the
    payoff: it is not between the two bounds. *)
Lemma bull_call_spread_negative_days :
  let S := createBullCallSpreadStrategy (Fin 100) (Fin 110) (Fin 100)
             (Some (Fin (-365))) in
  let hi := ((Fin 110 - Fin 100 - netDebit S) * Fin 100)%num in
  let lo := (- netDebit S * Fin 100)%num in
  calculateStrategyPayoff S (Fin 105) = NaN
  /\ ~ ((lo <= calculateStrategyPayoff S (Fin 105))%num
        /\ (calculateStrategyPayoff S (Fin 105) <= hi)%num).
Proof.
  intros S hi lo.
  assert (E : calculateStrategyPayoff S (Fin 105) = NaN).
  { unfold S, createBullCallSpreadStrategy, default_to.
    rewrite !calculateRealisticPremium_NaN by lra. reflexivity. }
  split; [exact E |]. rewrite E. intros [_ H].
  unfold nle, nleb in H. destruct hi; discriminate.
Qed.

(** C7 (amended): for strikes [K1 < K2], a current price [> 0] and days to
    expiration [>= 0], with [Lp] and [Sp] the premiums of the long and the
    short leg, the bull call spread pays [-Lp*100 + Sp*100] at every price
    [p <= K1], pays [(p - K1 - Lp)*100 + (-(p - K2) + Sp)*100] at every
    price [p >= K2], and between the strikes pays no less than at [K1] and
    no more than at [K2].  As real numbers the first amount is
    [-netDebit*100] and the second [(K2 - K1 - netDebit)*100], whatever
    [p]. *)
Theorem bull_call_spread_payoff (K1 K2 cp d p : R) :
  (K1 < K2)%R -> (0 < cp)%R -> (0 <= d)%R ->
  let S := createBullCallSpreadStrategy (Fin K1) (Fin K2) (Fin cp)
             (Some (Fin d)) in
  exists Lp Sp : R,
    premiums S = [Fin Lp; Fin Sp]
    /\ calculateRealisticPremium call (Fin K1) (Fin cp) (Some (Fin d)) = Fin Lp
    /\ calculateRealisticPremium call (Fin K2) (Fin cp) (Some (Fin d)) = Fin Sp
    /\ netDebit S = Fin (Lp - Sp)
    /\ ((p <= K1)%R ->
        calculateStrategyPayoff S (Fin p) = Fin (- Lp * 100 + Sp * 100))
    /\ ((K2 <= p)%R ->
        calculateStrategyPayoff S (Fin p)
        = Fin ((p - K1 - Lp) * 100 + (- (p - K2) + Sp) * 100))
    /\ ((K1 <= p <= K2)%R ->
        (calculateStrategyPayoff S (Fin K1)
         <= calculateStrategyPayoff S (Fin p))%num
        /\ (calculateStrategyPayoff S (Fin p)
            <= calculateStrategyPayoff S (Fin K2))%num)
    /\ (- Lp * 100 + Sp * 100 = - (Lp - Sp) * 100)%R
    /\ ((p - K1 - Lp) * 100 + (- (p - K2) + Sp) * 100
        = (K2 - K1 - (Lp - Sp)) * 100)%R.
Proof.
  intros HK Hcp Hd S.
  exists (premium_formula call K1 cp d), (premium_formula call K2 cp d).
  unfold netDebit, premiums, S, createBullCallSpreadStrategy,
    default_to, calculateStrategyPayoff, calculateLegPayoff, multiplier_of.
  rewrite !calculateRealisticPremium_real by assumption.
  generalize (premium_formula call K1 cp d) (premium_formula call K2 cp d).
  intros Lp Sp. unfold nle. cbn.
  split; [reflexivity |]. split; [reflexivity |]. split; [reflexivity |].
  split; [reflexivity |].
  split; [intros; rcases; fin_eq |].
  split; [intros; rcases; fin_eq |].
  split; [intros; rcases; fin_eq |].
  split; ring.
Qed.

Lemma bull_call_spread_payoff_witness :
  let S := createBullCallSpreadStrategy (Fin 100) (Fin 110) (Fin 100)
             (Some (Fin 30)) in
  exists Lp Sp : R,
    premiums S = [Fin Lp; Fin Sp]
    /\ calculateRealisticPremium call (Fin 100) (Fin 100) (Some (Fin 30))
       = Fin Lp
    /\ calculateRealisticPremium call (Fin 110) (Fin 100) (Some (Fin 30))
       = Fin Sp
    /\ netDebit S = Fin (Lp - Sp)
    /\ ((120 <= 100)%R ->
        calculateStrategyPayoff S (Fin 120) = Fin (- Lp * 100 + Sp * 100))
    /\ ((110 <= 120)%R ->
        calculateStrategyPayoff S (Fin 120)
        = Fin ((120 - 100 - Lp) * 100 + (- (120 - 110) + Sp) * 100))
    /\ ((100 <= 120 <= 110)%R ->
        (calculateStrategyPayoff S (Fin 100)
         <= calculateStrategyPayoff S (Fin 120))%num
        /\ (calculateStrategyPayoff S (Fin 120)
            <= calculateStrategyPayoff S (Fin 110))%num)
    /\ (- Lp * 100 + Sp * 100 = - (Lp - Sp) * 100)%R
    /\ ((120 - 100 - Lp) * 100 + (- (120 - 110) + Sp) * 100
        = (110 - 100 - (Lp - Sp)) * 100)%R.
Proof.
  intros S.
  apply (bull_call_spread_payoff 100 110 100 30 120); lra.
Defined.

(** ** The Greeks *)

Lemma nmul_1_r (a : number) : (a * Fin 1)%num = a.
Proof.
  destruct a; cbn; unfold signed_inf;
    rewrite ?(Rltb_true 0 1) by lra; fin_eq.
Qed.

Lemma nmul_m1_r (a : number) : (a * Fin (-1))%num = (- a)%num.
Proof.
  destruct a; cbn; unfold signed_inf;
    rewrite ?(Rltb_false 0 (-1)), ?(Rltb_true (-1) 0) by lra; fin_eq.
Qed.

Lemma nmul_nneg_l (a b : number) : (- a * b)%num = (- (a * b))%num.
Proof.
  destruct a, b; cbn; unfold signed_inf; try reflexivity;
    rcases; cbn; fin_eq.
Qed.

(** The contribution of a leg to a Greek changes sign with the action. *)
Lemma flip_contribution (g : number) (leg : OptionLeg) :
  (Fin 0 + g * multiplier_of (flip_action leg) * quantity leg)%num
  = (- (Fin 0 + g * multiplier_of leg * quantity leg))%num.
Proof.
  rewrite !nadd_0_l. unfold multiplier_of, flip_action; cbn.
  destruct (action leg);
    rewrite nmul_1_r, nmul_m1_r, nmul_nneg_l; [reflexivity |].
  now destruct (g * quantity leg)%num; cbn; fin_eq.
Qed.

(** C8: on a single-leg strategy, flipping the action of the leg between
    buy and sell, everything else unchanged, negates Delta, Gamma, Theta and
    Vega at every swept price, for every current price other than zero. *)
Theorem greeks_flip_sign (n : string) (leg : OptionLeg)
  (p currentPrice : number) (days : option number) :
  currentPrice <> Fin 0 ->
  let S := mkStrategy n [leg] in
  let S' := mkStrategy n [flip_action leg] in
  calculateDelta S' p currentPrice = (- calculateDelta S p currentPrice)%num
  /\ calculateGamma S' p currentPrice = (- calculateGamma S p currentPrice)%num
  /\ calculateTheta S' p currentPrice days
     = (- calculateTheta S p currentPrice days)%num
  /\ calculateVega S' p currentPrice days
     = (- calculateVega S p currentPrice days)%num.
Proof.
  intros _ S S'.
  unfold S, S', calculateDelta, calculateGamma, calculateTheta, calculateVega.
  cbn [legs fold_left].
  repeat split; rewrite <- flip_contribution; reflexivity.
Qed.

Lemma greeks_flip_sign_witness :
  let leg := mkLeg call buy (Fin 100) (Fin 5) (Fin 2) in
  calculateDelta (mkStrategy "Short" [flip_action leg]) (Fin 105) (Fin 100)
  = (- calculateDelta (mkStrategy "Short" [leg]) (Fin 105) (Fin 100))%num.
Proof.
  intros leg.
  apply (greeks_flip_sign "Short" leg (Fin 105) (Fin 100) None).
  intros H; injection H; lra.
Defined.

(** At the money the Delta of one long call is one half, and that of the
    short call is minus one half. *)
Example delta_at_the_money :
  calculateDelta
    (mkStrategy "Long Call" [mkLeg call buy (Fin 100) (Fin 5) (Fin 1)])
    (Fin 100) (Fin 100) = Fin 0.5
  /\ calculateDelta
       (mkStrategy "Short Call" [mkLeg call sell (Fin 100) (Fin 5) (Fin 1)])
       (Fin 100) (Fin 100) = Fin (-0.5).
Proof.
  unfold calculateDelta, multiplier_of. cbn.
  rewrite !(Reqb_false (100 * 0.1) 0) by lra. cbn.
  replace (- ((100 + - (100)) / (100 * 0.1)))%R with 0%R by (field; lra).
  rewrite exp_0.
  rewrite !(Reqb_false (1 + 1) 0) by lra. cbn.
  split; f_equal; lra.
Qed.

(** ** The curve generator *)

Lemma generatePayoffData_length (S : Strategy) (cp : number)
  (priceRange : option number) :
  length (generatePayoffData S cp priceRange) = 201%nat.
Proof. unfold generatePayoffData. now rewrite length_map, length_seq. Qed.

(** C6: whatever the strategy, the current price and the price range, every
    point of the generated curve carries the Theta and the Vega computed
    with 30 days to expiration. *)
Theorem generatePayoffData_theta_vega (S : Strategy) (currentPrice : number)
  (priceRange : option number) (pt : CurvePoint) :
  In pt (generatePayoffData S currentPrice priceRange) ->
  theta pt = calculateTheta S (price pt) currentPrice (Some (Fin 30))
  /\ vega pt = calculateVega S (price pt) currentPrice (Some (Fin 30)).
Proof.
  unfold generatePayoffData. intros H.
  apply in_map_iff in H. destruct H as [i [<- _]].
  split; reflexivity.
Qed.

Lemma generatePayoffData_theta_vega_witness :
  let S := createLongCallStrategy (Fin 100) (Fin 100) (Some (Fin 7)) None in
  let pt := nth 100 (generatePayoffData S (Fin 100) None) no_point in
  theta pt = calculateTheta S (price pt) (Fin 100) (Some (Fin 30))
  /\ vega pt = calculateVega S (price pt) (Fin 100) (Some (Fin 30)).
Proof.
  intros S pt.
  apply (generatePayoffData_theta_vega S (Fin 100) None pt).
  apply nth_In. rewrite generatePayoffData_length. lia.
Defined.

(** ** The statistics extractor *)

Lemma max_comm (a b : number) : Math.max a b = Math.max b a.
Proof. destruct a, b; cbn; try reflexivity. now rewrite Rmax_comm. Qed.

Lemma max_assoc (a b c : number) :
  Math.max a (Math.max b c) = Math.max (Math.max a b) c.
Proof. destruct a, b, c; cbn; try reflexivity. now rewrite Rmax_assoc. Qed.

Lemma min_comm (a b : number) : Math.min a b = Math.min b a.
Proof. destruct a, b; cbn; try reflexivity. now rewrite Rmin_comm. Qed.

Lemma min_assoc (a b c : number) :
  Math.min a (Math.min b c) = Math.min (Math.min a b) c.
Proof. destruct a, b, c; cbn; try reflexivity. now rewrite Rmin_assoc. Qed.

Lemma max_list_maximum (l : list number) : Math.max_list l = maximum l.
Proof.
  unfold Math.max_list.
  assert (G : forall a, fold_left Math.max l a = Math.max a (maximum l)).
  { induction l as [|x l IH]; intros a; cbn.
    - now destruct a.
    - now rewrite IH, max_assoc. }
  rewrite G. now destruct (maximum l).
Qed.

Lemma min_list_minimum (l : list number) : Math.min_list l = minimum l.
Proof.
  unfold Math.min_list.
  assert (G : forall a, fold_left Math.min l a = Math.min a (minimum l)).
  { induction l as [|x l IH]; intros a; cbn.
    - now destruct a.
    - now rewrite IH, min_assoc. }
  rewrite G. now destruct (minimum l).
Qed.

Lemma breakeven_step_push (data : list CurvePoint) (acc : list number)
  (i : nat) :
  breakeven_step data acc i
  = acc ++ found (nth (i - 1) data no_point, nth i data no_point).
Proof.
  unfold breakeven_step, found, opposite_sides, interpolate.
  destruct (_ || _)%bool; [reflexivity | now rewrite app_nil_r].
Qed.

Lemma breakeven_fold (data : list CurvePoint) (l : list nat)
  (acc : list number) :
  fold_left (breakeven_step data) l acc
  = acc ++ flat_map
             (fun i => found (nth (i - 1) data no_point, nth i data no_point)) l.
Proof.
  revert acc. induction l as [|i l IH]; intros acc; cbn.
  - now rewrite app_nil_r.
  - now rewrite IH, breakeven_step_push, app_assoc.
Qed.

Lemma flat_map_shift {A : Type} (f : nat -> list A) (a n : nat) :
  flat_map f (seq (S a) n) = flat_map (fun j => f (S j)) (seq a n).
Proof.
  revert a. induction n as [|n IH]; intros a; cbn; [reflexivity |].
  now rewrite IH.
Qed.

Lemma found_pairs (rest : list CurvePoint) (a : CurvePoint) :
  flat_map (fun j => found (nth j (a :: rest) no_point, nth j rest no_point))
           (seq 0 (length rest))
  = flat_map found (combine (a :: rest) rest).
Proof.
  revert a. induction rest as [|b tl IH]; intros a; [reflexivity |].
  cbn [length seq flat_map combine]. rewrite flat_map_shift.
  f_equal. apply (IH b).
Qed.

Lemma found_crossings (l : list (CurvePoint * CurvePoint)) :
  flat_map found l = map interpolate (filter opposite_sides l).
Proof.
  induction l as [|pc l IH]; cbn; [reflexivity |].
  unfold found at 1. destruct (opposite_sides pc); cbn; now rewrite IH.
Qed.

Lemma breakeven_loop_crossings (data : list CurvePoint) :
  breakeven_loop data = crossings data.
Proof.
  unfold breakeven_loop, crossings, consecutive_pairs.
  rewrite breakeven_fold, <- found_crossings. cbn [app].
  destruct data as [|a rest]; [reflexivity |].
  cbn [length tl]. rewrite Nat.sub_succ, Nat.sub_0_r, flat_map_shift.
  rewrite <- found_pairs. apply flat_map_ext. intros j.
  now rewrite Nat.sub_succ, Nat.sub_0_r.
Qed.

Lemma profit_probability_forms (c n : R) :
  (Fin c / Fin n * Fin 100)%num = (Fin 100 * Fin c / Fin n)%num.
Proof.
  cbn. unfold signed_inf.
  destruct (Req_dec_T n 0) as [E | E].
  - rewrite (Reqb_true n 0) by assumption.
    destruct (Rlt_dec 0 c); [| destruct (Rlt_dec c 0)].
    + rewrite (Rltb_true 0 c), (Rltb_true 0 (100 * c)) by lra. cbn.
      unfold signed_inf. now rewrite (Rltb_true 0 100) by lra.
    + rewrite (Rltb_false 0 c), (Rltb_true c 0), (Rltb_false 0 (100 * c)),
        (Rltb_true (100 * c) 0) by lra. cbn.
      unfold signed_inf. now rewrite (Rltb_true 0 100) by lra.
    + rewrite (Rltb_false 0 c), (Rltb_false c 0), (Rltb_false 0 (100 * c)),
        (Rltb_false (100 * c) 0) by lra. reflexivity.
  - rewrite (Reqb_false n 0) by assumption. cbn. f_equal. now field.
Qed.

Lemma filter_map_length {A B : Type} (f : A -> B) (P : B -> bool)
  (l : list A) :
  length (filter P (map f l)) = length (filter (fun x => P (f x)) l).
Proof.
  induction l as [|x l IH]; cbn; [reflexivity |].
  destruct (P (f x)); cbn; now rewrite IH.
Qed.

(** The statistics the code computes from a curve are the ones the
    specification extracts from it. *)
Lemma stats_of_curve (data : list CurvePoint) :
  let payoffs := map payoff data in
  {| maxProfit := if strict_eqb (Math.max_list payoffs) NegInf
                  then PosInf else Math.max_list payoffs;
     maxLoss := if strict_eqb (Math.min_list payoffs) PosInf
                then NegInf else Math.min_list payoffs;
     breakeven := breakeven_loop data;
     profitProbability :=
       (of_nat (length (filter (fun p => p >? Fin 0)%num payoffs))
        / of_nat (length payoffs) * Fin 100)%num |}
  = extractStats data.
Proof.
  intros payoffs. unfold extractStats, payoffs.
  rewrite max_list_maximum, min_list_minimum, breakeven_loop_crossings.
  rewrite filter_map_length, length_map.
  unfold of_nat. rewrite profit_probability_forms.
  f_equal.
  - now destruct (maximum (map payoff data)).
  - now destruct (minimum (map payoff data)).
Qed.

(** C9: the statistics of a strategy are those extracted from the curve
    generated with the price range [0.15]: 201 points, from
    [currentPrice - currentPrice*0.15] to [currentPrice + currentPrice*0.15];
    the function takes no curve and no price range. *)
Theorem calculateStrategyStats_default_curve (S : Strategy) (currentPrice : number) :
  let curve := generatePayoffData S currentPrice (Some (Fin 0.15)) in
  let lo := (currentPrice - currentPrice * Fin 0.15)%num in
  let hi := (currentPrice + currentPrice * Fin 0.15)%num in
  calculateStrategyStats S currentPrice = extractStats curve
  /\ length curve = 201%nat
  /\ map price curve
     = map (fun i => lo + of_nat i * ((hi - lo) / Fin 200))%num (seq 0 201).
Proof.
  intros curve lo hi. split; [| split].
  - unfold calculateStrategyStats. apply (stats_of_curve curve).
  - apply generatePayoffData_length.
  - unfold curve, generatePayoffData. rewrite map_map. reflexivity.
Qed.

(** *** Maximum and minimum *)

Lemma extrema_finite (l : list number) :
  Forall (fun y => is_finite y = true) l ->
  l = [] \/ exists m n : R,
              maximum l = Fin m /\ minimum l = Fin n /\ (n <= m)%R.
Proof.
  induction 1 as [|x l Hx _ IH]; [now left | right].
  destruct x as [| | |a]; try discriminate.
  destruct IH as [-> | (m & n & Em & En & Hnm)].
  - exists a, a. cbn. repeat split; lra.
  - exists (Rmax a m), (Rmin a n). cbn. rewrite Em, En.
    repeat split. rcases; lra.
Qed.

(** C10: when every payoff of the curve is finite, the reported maximum
    profit is at least the reported maximum loss: they are the maximum and
    the minimum of the same 201 payoffs, and neither replacement of an
    infinity takes place. *)
Theorem maxProfit_ge_maxLoss (S : Strategy) (currentPrice : number) :
  let payoffs := map payoff (generatePayoffData S currentPrice None) in
  let stats := calculateStrategyStats S currentPrice in
  Forall (fun y => is_finite y = true) payoffs ->
  (maxLoss stats <= maxProfit stats)%num
  /\ length payoffs = 201%nat
  /\ maxProfit stats = Math.max_list payoffs
  /\ maxLoss stats = Math.min_list payoffs
  /\ strict_eqb (Math.max_list payoffs) NegInf = false
  /\ strict_eqb (Math.min_list payoffs) PosInf = false.
Proof.
  intros payoffs stats HF.
  assert (HL : length payoffs = 201%nat).
  { unfold payoffs. now rewrite length_map, generatePayoffData_length. }
  destruct (extrema_finite payoffs HF) as [E | (m & n & Em & En & Hnm)].
  { rewrite E in HL. discriminate. }
  unfold stats, calculateStrategyStats. fold payoffs. cbn [maxProfit maxLoss].
  rewrite max_list_maximum, min_list_minimum, Em, En. cbn.
  repeat split; try assumption. unfold nle. cbn. now apply Rleb_true.
Qed.

(** *** Curves of strategies with real fields *)

Lemma calculateLegPayoff_real (leg : OptionLeg) (p : R) :
  real_leg leg = true -> exists y : R, calculateLegPayoff leg (Fin p) = Fin y.
Proof.
  destruct leg as [ty ac [| | |K] [| | |Pr] [| | |q]]; try discriminate.
  intros _. unfold calculateLegPayoff, multiplier_of.
  destruct ty, ac; cbn; eexists; reflexivity.
Qed.

Lemma calculateStrategyPayoff_real (S : Strategy) (p : R) :
  real_strategy S = true ->
  exists y : R, calculateStrategyPayoff S (Fin p) = Fin y.
Proof.
  unfold real_strategy, calculateStrategyPayoff.
  generalize 0%R. induction (legs S) as [|leg l IH]; intros a H; cbn.
  - now exists a.
  - cbn in H. apply andb_prop in H. destruct H as [Hleg Hl].
    destruct (calculateLegPayoff_real leg p Hleg) as [y ->]. cbn.
    now apply IH.
Qed.

Lemma asc_curve_weaken (lo lo' : R) (data : list CurvePoint) :
  (lo <= lo')%R -> asc_curve lo' data -> asc_curve lo data.
Proof.
  intros Hlo H. destruct H as [|lo' x y pt rest Hx Hy Hle Hrest].
  - constructor.
  - apply (asc_cons lo x y); trivial. lra.
Qed.

Lemma asc_curve_finite (lo : R) (data : list CurvePoint) :
  asc_curve lo data -> Forall (fun y => is_finite y = true) (map payoff data).
Proof.
  induction 1 as [|lo x y pt rest Hx Hy Hle _ IH]; cbn; constructor.
  - now rewrite Hy.
  - exact IH.
Qed.

Section SampledCurve.

(** The samples of a strategy with real fields, from [s] in steps of
    [h >= 0]. *)
Variables (S : Strategy) (cp : number) (s h : R).
Hypothesis S_real : real_strategy S = true.
Hypothesis h_nonneg : (0 <= h)%R.

Lemma grid_succ (a : nat) : (grid s h a <= grid s h (Datatypes.S a))%R.
Proof.
  unfold grid. rewrite Nat2Z.inj_succ, succ_IZR.
  pose proof h_nonneg. nra.
Qed.

Lemma sampled_curve_asc (n a : nat) :
  asc_curve (grid s h a) (map (curve_point S cp (Fin s) (Fin h)) (seq a n)).
Proof.
  revert a. induction n as [|n IH]; intros a; cbn [seq map].
  - constructor.
  - destruct (calculateStrategyPayoff_real S (grid s h a) S_real) as [y Hy].
    apply (asc_cons _ (grid s h a) y); [reflexivity | exact Hy | lra |].
    apply (asc_curve_weaken _ (grid s h (Datatypes.S a)));
      [apply grid_succ | apply IH].
Qed.

End SampledCurve.

Lemma generatePayoffData_real (S : Strategy) (cp : R) :
  generatePayoffData S (Fin cp) None
  = map (curve_point S (Fin cp) (Fin (cp + - (cp * 0.15)))
           (Fin ((cp + cp * 0.15 + - (cp + - (cp * 0.15))) / 200)))
        (seq 0 201).
Proof.
  unfold generatePayoffData, default_to, of_nat. cbn [nmul nsub nadd nneg ndiv].
  change (IZR (Z.of_nat 200)) with 200%R.
  now rewrite (Reqb_false 200 0) by lra.
Qed.

Lemma generatePayoffData_asc (S : Strategy) (cp : R) :
  real_strategy S = true -> (0 < cp)%R ->
  exists lo : R, asc_curve lo (generatePayoffData S (Fin cp) None).
Proof.
  intros HS Hcp. rewrite generatePayoffData_real. eexists.
  apply (sampled_curve_asc S (Fin cp) _ _ HS); lra.
Qed.

(** *** Breakevens in ascending order *)

Lemma interpolate_between (prev curr : CurvePoint) (x y x' y' : R) :
  price prev = Fin x -> payoff prev = Fin y ->
  price curr = Fin x' -> payoff curr = Fin y' ->
  (x <= x')%R -> opposite_sides (prev, curr) = true ->
  exists b : R, interpolate (prev, curr) = Fin b /\ (x <= b <= x')%R.
Proof.
  intros Hx Hy Hx' Hy' Hle Hopp.
  unfold opposite_sides, interpolate in *. rewrite Hx, Hy, Hx', Hy' in *.
  unfold ngtb in Hopp. cbn in Hopp |- *.
  assert (HD : (0 < Rabs y + Rabs y')%R).
  { apply orb_prop in Hopp.
    destruct Hopp as [H | H]; apply andb_prop in H; destruct H as [H1 H2];
      apply Rltb_spec in H1 || apply Rleb_spec in H1;
      apply Rltb_spec in H2 || apply Rleb_spec in H2;
      pose proof (Rabs_pos y); pose proof (Rabs_pos y');
      [ assert (0 < Rabs y')%R by (apply Rabs_pos_lt; lra)
      | assert (0 < Rabs y)%R by (apply Rabs_pos_lt; lra) ]; lra. }
  rewrite (Reqb_false (Rabs y + Rabs y') 0) by lra. cbn.
  eexists; split; [reflexivity |].
  set (r := (Rabs y / (Rabs y + Rabs y'))%R).
  assert (Hr : (r * (Rabs y + Rabs y') = Rabs y)%R) by (unfold r; field; lra).
  pose proof (Rabs_pos y). pose proof (Rabs_pos y').
  assert (0 <= r)%R
    by (unfold r, Rdiv; apply Rmult_le_pos;
        [lra | left; apply Rinv_0_lt_compat; lra]).
  assert (r <= 1)%R by nra.
  split; nra.
Qed.

Lemma crossings_cons (pt pt' : CurvePoint) (rest : list CurvePoint) :
  crossings (pt :: pt' :: rest) = found (pt, pt') ++ crossings (pt' :: rest).
Proof.
  unfold crossings, consecutive_pairs, found. cbn [tl combine filter].
  destruct (opposite_sides (pt, pt')); reflexivity.
Qed.

Lemma crossings_sorted (rest : list CurvePoint) :
  forall (pt : CurvePoint) (x y : R),
    price pt = Fin x -> payoff pt = Fin y -> asc_curve x rest ->
    Forall (at_least x) (crossings (pt :: rest))
    /\ StronglySorted nle (crossings (pt :: rest)).
Proof.
  induction rest as [|pt' rest IH]; intros pt x y Hx Hy Hasc.
  - split; constructor.
  - inversion Hasc as [|lo x' y' pt0 rest0 Hx' Hy' Hle Hrest]; subst.
    destruct (IH pt' x' y' Hx' Hy' Hrest) as [Hlow Hsorted].
    assert (Hlow' : Forall (at_least x) (crossings (pt' :: rest))).
    { eapply Forall_impl; [| exact Hlow].
      intros [| | |b]; cbn; trivial. lra. }
    rewrite crossings_cons. unfold found.
    destruct (opposite_sides (pt, pt')) eqn:Hopp; cbn [app];
      [| now split].
    destruct (interpolate_between pt pt' x y x' y' Hx Hy Hx' Hy' Hle Hopp)
      as (b & -> & Hb).
    split; constructor; trivial.
    + cbn. lra.
    + eapply Forall_impl; [| exact Hlow].
      intros [| | |c]; cbn; try contradiction.
      intros Hc. unfold nle. cbn. apply Rleb_true. lra.
Qed.

Lemma asc_curve_crossings_sorted (lo : R) (data : list CurvePoint) :
  asc_curve lo data -> StronglySorted nle (crossings data).
Proof.
  intros H. destruct H as [|lo x y pt rest Hx Hy _ Hrest].
  - constructor.
  - now apply (crossings_sorted rest pt x y).
Qed.

(** *** Strategies with a NaN field *)

Lemma nsub_NaN_r (a : number) : (a - NaN)%num = NaN.
Proof. now destruct a. Qed.

Lemma nsub_NaN_l (a : number) : (NaN - a)%num = NaN.
Proof. now destruct a. Qed.

Create Rewrite HintDb nan.
#[local] Hint Rewrite nmul_NaN_r nadd_NaN_r max_NaN_r nsub_NaN_r nsub_NaN_l
  : nan.

Lemma calculateLegPayoff_NaN (leg : OptionLeg) (p : number) :
  has_NaN leg = true -> calculateLegPayoff leg p = NaN.
Proof.
  destruct leg as [ty ac K Pr q]. unfold has_NaN, calculateLegPayoff. cbn.
  intros H.
  destruct q as [| | |q]; [now autorewrite with nan | | |];
    (destruct Pr as [| | |Pr];
     [ destruct ac; cbn; now autorewrite with nan | | |]);
    (destruct K as [| | |K]; try discriminate;
     destruct ty; now autorewrite with nan).
Qed.

Lemma calculateStrategyPayoff_NaN (S : Strategy) (p : number) :
  existsb has_NaN (legs S) = true -> calculateStrategyPayoff S p = NaN.
Proof.
  rewrite calculateStrategyPayoff_sum.
  induction (legs S) as [|leg l IH]; cbn; [discriminate |].
  intros H. apply orb_prop in H. destruct H as [H | H].
  - now rewrite calculateLegPayoff_NaN.
  - now rewrite IH, nadd_NaN_r.
Qed.

Lemma real_or_NaN (S : Strategy) :
  no_infinite_field S = true ->
  real_strategy S = true \/ existsb has_NaN (legs S) = true.
Proof.
  unfold no_infinite_field, real_strategy.
  induction (legs S) as [|leg l IH]; cbn [forallb existsb]; [now left |].
  intros H. apply andb_prop in H. destruct H as [Hleg Hl].
  destruct (IH Hl) as [Hr | Hn]; [| right; rewrite Hn; apply orb_true_r].
  rewrite Hr, andb_true_r. unfold real_leg, has_NaN.
  destruct (strike leg), (premium leg), (quantity leg);
    try discriminate; cbn; auto.
Qed.

Lemma filter_none {A : Type} (f : A -> bool) (l : list A) :
  (forall x, In x l -> f x = false) -> filter f l = [].
Proof.
  induction l as [|x l IH]; intros H; cbn; [reflexivity |].
  rewrite (H x) by now left. apply IH. intros y Hy. apply H. now right.
Qed.

Lemma crossings_NaN (data : list CurvePoint) :
  Forall (fun pt => payoff pt = NaN) data -> crossings data = [].
Proof.
  intros H. unfold crossings. rewrite filter_none; [reflexivity |].
  intros [prev curr] Hin. apply in_combine_l in Hin.
  rewrite Forall_forall in H. unfold opposite_sides, ngtb.
  now rewrite (H prev Hin).
Qed.

(** C5: for a strategy no field of which is infinite and a current price
    [> 0], the breakevens reported are, in the order of the curve, the
    interpolated price [prevPrice + |prevPayoff| / (|prevPayoff| +
    |currPayoff|) * (currPrice - prevPrice)] of each pair of consecutive
    points whose payoffs are on opposite sides of the [<= 0] / [> 0]
    partition, one entry for each such pair, and they are in ascending
    order. *)
Theorem breakevens_interpolated_ascending (S : Strategy) (currentPrice : R) :
  no_infinite_field S = true -> (0 < currentPrice)%R ->
  let curve := generatePayoffData S (Fin currentPrice) None in
  breakeven (calculateStrategyStats S (Fin currentPrice))
  = map interpolate (filter opposite_sides (consecutive_pairs curve))
  /\ StronglySorted nle (breakeven (calculateStrategyStats S (Fin currentPrice))).
Proof.
  intros HS Hcp curve.
  assert (E : breakeven (calculateStrategyStats S (Fin currentPrice))
              = crossings curve).
  { unfold calculateStrategyStats. cbn [breakeven].
    apply breakeven_loop_crossings. }
  rewrite E. split; [reflexivity |].
  destruct (real_or_NaN S HS) as [Hreal | HNaN].
  - destruct (generatePayoffData_asc S currentPrice Hreal Hcp) as [lo Hasc].
    now apply (asc_curve_crossings_sorted lo).
  - rewrite crossings_NaN; [constructor |].
    unfold curve, generatePayoffData. apply Forall_forall. intros pt Hin.
    apply in_map_iff in Hin. destruct Hin as [i [<- _]].
    now apply calculateStrategyPayoff_NaN.
Qed.

Lemma breakevens_interpolated_ascending_witness :
  let S := mkStrategy "Long Call" [mkLeg call buy (Fin 100) (Fin 5) (Fin 1)] in
  StronglySorted nle (breakeven (calculateStrategyStats S (Fin 100))).
Proof.
  intros S.
  apply (breakevens_interpolated_ascending S 100); [reflexivity | lra].
Defined.

Lemma maxProfit_ge_maxLoss_witness :
  let S := mkStrategy "Long Call" [mkLeg call buy (Fin 100) (Fin 5) (Fin 1)] in
  (maxLoss (calculateStrategyStats S (Fin 100))
   <= maxProfit (calculateStrategyStats S (Fin 100)))%num.
Proof.
  intros S.
  apply (maxProfit_ge_maxLoss S (Fin 100)).
  destruct (generatePayoffData_asc S 100) as [lo Hasc];
    [reflexivity | lra |].
  exact (asc_curve_finite lo _ Hasc).
Defined.

(** *** A worked curve: the long call struck at 100 for a premium of 5 *)

Lemma sampled_pair_in (f : nat -> CurvePoint) (n a i : nat) :
  (i + 1 < n)%nat ->
  In (f (a + i)%nat, f (a + i + 1)%nat)
     (consecutive_pairs (map f (seq a n))).
Proof.
  unfold consecutive_pairs.
  revert a i. induction n as [|n IH]; intros a i Hi; [lia |].
  destruct n as [|n]; [lia |].
  cbn [seq map tl combine]. destruct i as [|i].
  - left. now rewrite Nat.add_0_r, Nat.add_1_r.
  - right. specialize (IH (Datatypes.S a) i ltac:(lia)).
    cbn [seq map tl] in IH.
    replace (a + Datatypes.S i)%nat with (Datatypes.S a + i)%nat by lia.
    exact IH.
Qed.

(** The curve of that long call around a current price of 100 crosses zero
    between its samples 133 and 134, and the breakeven reported there is
    105, the strike plus the premium. *)
Example long_call_breakeven :
  let S := mkStrategy "Long Call" [mkLeg call buy (Fin 100) (Fin 5) (Fin 1)] in
  In (Fin 105) (breakeven (calculateStrategyStats S (Fin 100))).
Proof.
  intros S. unfold calculateStrategyStats. cbn [breakeven].
  rewrite breakeven_loop_crossings, generatePayoffData_real.
  unfold crossings.
  set (f := curve_point S (Fin 100) _ _).
  assert (Hin : In (f 133%nat, f 134%nat)
                   (consecutive_pairs (map f (seq 0 201))))
    by (apply (sampled_pair_in f 201 0 133); lia).
  assert (X1 : price (f 133%nat) = Fin 104.95) by (cbn; f_equal; lra).
  assert (X2 : price (f 134%nat) = Fin 105.1) by (cbn; f_equal; lra).
  assert (Y1 : payoff (f 133%nat) = Fin (-5)).
  { unfold f, curve_point, S, of_nat, calculateStrategyPayoff,
      calculateLegPayoff, multiplier_of.
    cbn. f_equal. unfold Rmax. destruct (Rle_dec _ _); lra. }
  assert (Y2 : payoff (f 134%nat) = Fin 10).
  { unfold f, curve_point, S, of_nat, calculateStrategyPayoff,
      calculateLegPayoff, multiplier_of.
    cbn. f_equal. unfold Rmax. destruct (Rle_dec _ _); lra. }
  assert (Hopp : opposite_sides (f 133%nat, f 134%nat) = true).
  { unfold opposite_sides, ngtb. rewrite Y1, Y2. cbn.
    now rewrite (Rleb_true (-5) 0), (Rltb_true 0 10) by lra. }
  assert (Hval : interpolate (f 133%nat, f 134%nat) = Fin 105).
  { unfold interpolate. rewrite X1, X2, Y1, Y2. cbn.
    rewrite (Rabs_left (-5)), (Rabs_right 10) by lra.
    rewrite Reqb_false by lra. cbn. f_equal.
    replace (- (-5) / (- (-5) + 10))%R with (1 / 3)%R by field. lra. }
  rewrite <- Hval. apply in_map. apply filter_In. now split.
Qed.

(** * Further properties of the engine *)

(** ** Buyer and seller *)

Lemma nneg_involutive (a : number) : (- - a)%num = a.
Proof. destruct a; cbn; fin_eq. Qed.

Lemma nneg_nadd (a b : number) : (- (a + b))%num = (- a + - b)%num.
Proof. destruct a, b; cbn; fin_eq. Qed.

Lemma sum_list_nneg (l : list number) :
  sum_list (map nneg l) = (- sum_list l)%num.
Proof.
  induction l as [|a l IH]; cbn [map sum_list].
  - cbn; fin_eq.
  - now rewrite IH, nneg_nadd.
Qed.

Lemma calculateLegPayoff_flip (leg : OptionLeg) (p : number) :
  calculateLegPayoff (flip_action leg) p = (- calculateLegPayoff leg p)%num.
Proof.
  unfold calculateLegPayoff, multiplier_of, flip_action. cbn [type action strike premium quantity].
  set (iv := match type leg with
             | call => Math.max (Fin 0) (p - strike leg)
             | put => Math.max (Fin 0) (strike leg - p)
             end).
  destruct (action leg); rewrite nmul_1_r, nmul_m1_r, <- !nmul_nneg_l;
    rewrite nneg_nadd, ?nneg_involutive; reflexivity.
Qed.

(** A strategy with every leg flipped pays the opposite. *)
Lemma calculateStrategyPayoff_flip (n n' : string) (l : list OptionLeg)
  (p : number) :
  calculateStrategyPayoff (mkStrategy n' (map flip_action l)) p
  = (- calculateStrategyPayoff (mkStrategy n l) p)%num.
Proof.
  rewrite !calculateStrategyPayoff_sum. cbn [legs].
  rewrite <- sum_list_nneg, !map_map.
  f_equal. apply map_ext. intros leg. apply calculateLegPayoff_flip.
Qed.

(** What a position pays its buyer it costs its seller: flipping the action
    of a leg negates its payoff, and flipping every leg of a strategy
    negates the payoff of the strategy, at every price and for every value
    of the fields. *)
Theorem buyer_seller_zero_sum (S : Strategy) (n' : string) (p : number) :
  (forall leg : OptionLeg,
     calculateLegPayoff (flip_action leg) p
     = (- calculateLegPayoff leg p)%num)
  /\ calculateStrategyPayoff (mkStrategy n' (map flip_action (legs S))) p
     = (- calculateStrategyPayoff S p)%num.
Proof.
  split.
  - intros leg. apply calculateLegPayoff_flip.
  - destruct S as [n l]. apply calculateStrategyPayoff_flip.
Qed.

(** The bear call spread on two strikes is the other side of the bull call
    spread on the same strikes: at every price it pays the opposite. *)
Theorem bear_call_spread_mirrors_bull (K1 K2 cp : number)
  (d : option number) (p : number) :
  calculateStrategyPayoff (createBearCallSpreadStrategy K1 K2 cp d) p
  = (- calculateStrategyPayoff (createBullCallSpreadStrategy K1 K2 cp d) p)%num.
Proof.
  exact (calculateStrategyPayoff_flip "Bull Call Spread" "Bear Call Spread"
           (legs (createBullCallSpreadStrategy K1 K2 cp d)) p).
Qed.

(** ** Single legs on real inputs *)

(** A long put with strike [K], premium [Pr] and quantity [q] pays
    [-Pr*q*100] at every price [p >= K] and [(K - p - Pr)*q*100] at every
    price [p < K]. *)
Theorem long_put_payoff (K Pr q p : R) :
  let leg := mkLeg put buy (Fin K) (Fin Pr) (Fin q) in
  ((K <= p)%R -> calculateLegPayoff leg (Fin p) = Fin (- Pr * q * 100))
  /\ ((p < K)%R ->
      calculateLegPayoff leg (Fin p) = Fin ((K - p - Pr) * q * 100)).
Proof.
  unfold calculateLegPayoff, multiplier_of; cbn.
  split; intros; rcases; try lra; try (f_equal; ring);
    replace p with K by lra; f_equal; ring.
Qed.

Lemma long_put_payoff_witness :
  calculateLegPayoff (mkLeg put buy (Fin 100) (Fin 4) (Fin 2)) (Fin 90)
  = Fin ((100 - 90 - 4) * 2 * 100).
Proof. apply (long_put_payoff 100 4 2 90). lra. Defined.

(** The buyer of a leg never loses more than the premium paid, and the
    seller never earns more than the premium received, whatever the price. *)
Theorem leg_payoff_premium_bound (ty : OptionType) (K Pr q p : R) :
  (0 <= q)%R ->
  (Fin (- Pr * q * 100)
   <= calculateLegPayoff (mkLeg ty buy (Fin K) (Fin Pr) (Fin q)) (Fin p))%num
  /\ (calculateLegPayoff (mkLeg ty sell (Fin K) (Fin Pr) (Fin q)) (Fin p)
      <= Fin (Pr * q * 100))%num.
Proof.
  intros Hq. unfold nle, calculateLegPayoff, multiplier_of.
  destruct ty; cbn; split; apply Rleb_true; unfold Rmax;
    destruct (Rle_dec _ _); nra.
Qed.

Lemma leg_payoff_premium_bound_witness :
  (Fin (- 5 * 3 * 100)
   <= calculateLegPayoff (mkLeg call buy (Fin 100) (Fin 5) (Fin 3)) (Fin 250))%num.
Proof. apply (leg_payoff_premium_bound call 100 5 3 250). lra. Defined.

(** The payoff of a long call never decreases, and that of a long put never
    increases, as the price of the underlying rises. *)
Theorem long_leg_payoff_monotone (K Pr q p1 p2 : R) :
  (0 <= q)%R -> (p1 <= p2)%R ->
  (calculateLegPayoff (mkLeg call buy (Fin K) (Fin Pr) (Fin q)) (Fin p1)
   <= calculateLegPayoff (mkLeg call buy (Fin K) (Fin Pr) (Fin q)) (Fin p2))%num
  /\ (calculateLegPayoff (mkLeg put buy (Fin K) (Fin Pr) (Fin q)) (Fin p2)
      <= calculateLegPayoff (mkLeg put buy (Fin K) (Fin Pr) (Fin q)) (Fin p1))%num.
Proof.
  intros Hq Hp. unfold nle, calculateLegPayoff, multiplier_of.
  cbn; split; apply Rleb_true; unfold Rmax;
    repeat destruct (Rle_dec _ _); nra.
Qed.

Lemma long_leg_payoff_monotone_witness :
  (calculateLegPayoff (mkLeg call buy (Fin 100) (Fin 5) (Fin 1)) (Fin 90)
   <= calculateLegPayoff (mkLeg call buy (Fin 100) (Fin 5) (Fin 1)) (Fin 120))%num.
Proof. apply (long_leg_payoff_monotone 100 5 1 90 120); lra. Defined.

(** ** The long straddle *)

(** For a current price [> 0] and days to expiration [>= 0], the long
    straddle struck at [K] carries the two estimated premiums [Pc] and [Pp],
    both at least 0.05; it pays [(p - K - Pc)*100 + (-Pp)*100] at every
    price [p >= K] and [(-Pc)*100 + (K - p - Pp)*100] at every price
    [p <= K], and never less than at [p = K], where both premiums are lost.
    As real numbers both amounts are [(|p - K| - (Pc + Pp))*100]. *)
Theorem long_straddle_payoff (K cp d p : R) :
  (0 < cp)%R -> (0 <= d)%R ->
  let S := createLongStraddleStrategy (Fin K) (Fin cp) (Some (Fin d)) in
  exists Pc Pp : R,
    premiums S = [Fin Pc; Fin Pp]
    /\ calculateRealisticPremium call (Fin K) (Fin cp) (Some (Fin d)) = Fin Pc
    /\ calculateRealisticPremium put (Fin K) (Fin cp) (Some (Fin d)) = Fin Pp
    /\ (0.05 <= Pc)%R /\ (0.05 <= Pp)%R
    /\ ((K <= p)%R ->
        calculateStrategyPayoff S (Fin p)
        = Fin ((p - K - Pc) * 100 + (- Pp) * 100))
    /\ ((p <= K)%R ->
        calculateStrategyPayoff S (Fin p)
        = Fin ((- Pc) * 100 + (K - p - Pp) * 100))
    /\ (calculateStrategyPayoff S (Fin K)
        <= calculateStrategyPayoff S (Fin p))%num
    /\ ((K <= p)%R ->
        ((p - K - Pc) * 100 + (- Pp) * 100
         = (Rabs (p - K) - (Pc + Pp)) * 100)%R)
    /\ ((p <= K)%R ->
        ((- Pc) * 100 + (K - p - Pp) * 100
         = (Rabs (p - K) - (Pc + Pp)) * 100)%R).
Proof.
  intros Hcp Hd S.
  exists (premium_formula call K cp d), (premium_formula put K cp d).
  assert (Hc : (0.05 <= premium_formula call K cp d)%R) by apply Rmax_l.
  assert (Hp : (0.05 <= premium_formula put K cp d)%R) by apply Rmax_l.
  unfold premiums, S, createLongStraddleStrategy, default_to,
    calculateStrategyPayoff, calculateLegPayoff, multiplier_of.
  rewrite !calculateRealisticPremium_real by assumption.
  revert Hc Hp.
  generalize (premium_formula call K cp d) (premium_formula put K cp d).
  intros Pc Pp Hc Hp. unfold nle. cbn.
  split; [reflexivity |]. split; [reflexivity |]. split; [reflexivity |].
  split; [exact Hc |]. split; [exact Hp |].
  split; [intros; unfold Rmax; repeat destruct (Rle_dec _ _); fin_eq |].
  split; [intros; unfold Rmax; repeat destruct (Rle_dec _ _); fin_eq |].
  split; [apply Rleb_true; unfold Rmax; repeat destruct (Rle_dec _ _); lra |].
  split; intros H.
  - rewrite Rabs_right by lra. ring.
  - rewrite Rabs_left1 by lra. ring.
Qed.

Lemma long_straddle_payoff_witness :
  let S := createLongStraddleStrategy (Fin 100) (Fin 100) (Some (Fin 30)) in
  (calculateStrategyPayoff S (Fin 100) <= calculateStrategyPayoff S (Fin 130))%num.
Proof.
  intros S.
  destruct (long_straddle_payoff 100 100 30 130) as (Pc & Pp & H);
    [lra | lra |].
  apply H.
Defined.

(** ** The Greeks of several legs *)

Lemma fold_additive (f : number -> OptionLeg -> number) (l : list OptionLeg) :
  (forall t leg, f t leg = (t + f (Fin 0) leg)%num) ->
  fold_left f l (Fin 0)
  = fold_left nadd (map (fun leg => fold_left f [leg] (Fin 0)) l) (Fin 0).
Proof.
  intros Hf. generalize (Fin 0) at 1 3.
  induction l as [|x l IH]; intros a; cbn [fold_left map]; [reflexivity |].
  rewrite (Hf a x). apply IH.
Qed.

Lemma fold_two_legs (f : number -> OptionLeg -> number) (a b : OptionLeg) :
  (forall t leg, f t leg = (t + f (Fin 0) leg)%num) ->
  fold_left f [a; b] (Fin 0) = fold_left f [b; a] (Fin 0).
Proof.
  intros Hf. cbn [fold_left].
  rewrite (Hf (f (Fin 0) a) b), (Hf (f (Fin 0) b) a). apply nadd_comm.
Qed.

(** Each Greek of a strategy is the sum, added from 0 in the order of the
    legs, of the Greek of each leg taken alone; exchanging the two legs of a
    two-leg strategy does not change it. *)
Theorem greeks_additive (S : Strategy) (p cp : number) (days : option number) :
  let alone leg := mkStrategy (name S) [leg] in
  let total (greek : Strategy -> number) :=
    fold_left nadd (map (fun leg => greek (alone leg)) (legs S)) (Fin 0) in
  (calculateDelta S p cp = total (fun s => calculateDelta s p cp)
   /\ calculateGamma S p cp = total (fun s => calculateGamma s p cp)
   /\ calculateTheta S p cp days = total (fun s => calculateTheta s p cp days)
   /\ calculateVega S p cp days = total (fun s => calculateVega s p cp days))
  /\ forall (n n' : string) (a b : OptionLeg),
       let S1 := mkStrategy n [a; b] in
       let S2 := mkStrategy n' [b; a] in
       calculateDelta S2 p cp = calculateDelta S1 p cp
       /\ calculateGamma S2 p cp = calculateGamma S1 p cp
       /\ calculateTheta S2 p cp days = calculateTheta S1 p cp days
       /\ calculateVega S2 p cp days = calculateVega S1 p cp days.
Proof.
  intros alone total. split.
  - unfold total, alone, calculateDelta, calculateGamma, calculateTheta,
      calculateVega.
    cbn [legs].
    repeat split; apply fold_additive; intros t leg; cbv zeta;
      now rewrite nadd_0_l.
  - intros n n' a b S1 S2.
    unfold S1, S2, calculateDelta, calculateGamma, calculateTheta,
      calculateVega.
    cbn [legs].
    repeat split; apply fold_two_legs; intros t leg; cbv zeta;
      now rewrite nadd_0_l.
Qed.

(** ** Delta *)

Lemma sigmoid_range (x : R) : (0 < sigmoid x < 1)%R.
Proof.
  unfold sigmoid. pose proof (exp_pos (- x)) as He.
  assert (Hi : (0 < / (1 + exp (- x)))%R) by (apply Rinv_0_lt_compat; lra).
  assert (E : ((1 + exp (- x)) * / (1 + exp (- x)) = 1)%R)
    by (apply Rinv_r; lra).
  unfold Rdiv. split; nra.
Qed.

Lemma sigmoid_increasing (x y : R) : (x < y)%R -> (sigmoid x < sigmoid y)%R.
Proof.
  intros H. unfold sigmoid.
  assert (He : (exp (- y) < exp (- x))%R) by (apply exp_increasing; lra).
  pose proof (exp_pos (- y)). pose proof (exp_pos (- x)).
  unfold Rdiv. rewrite !Rmult_1_l.
  apply Rinv_lt_contravar; nra.
Qed.

Lemma sigmoid_complement (x : R) :
  (- 1 / (1 + exp x) = sigmoid x - 1)%R.
Proof.
  unfold sigmoid. rewrite exp_Ropp. pose proof (exp_pos x). field. lra.
Qed.

Lemma calculateDelta_call_real (n : string) (ac : Action) (K q p cp : R)
  (Pr : number) :
  cp <> 0%R ->
  calculateDelta (mkStrategy n [mkLeg call ac (Fin K) Pr (Fin q)]) (Fin p) (Fin cp)
  = Fin (0 + sigmoid ((p - K) / (cp * 0.1))
             * (match ac with buy => 1 | sell => -1 end) * q).
Proof.
  intros Hcp. unfold calculateDelta, multiplier_of. cbn.
  rewrite (Reqb_false (cp * 0.1) 0) by lra. cbn.
  pose proof (exp_pos (- ((p + - K) / (cp * 0.1)))).
  rewrite Reqb_false by lra. unfold sigmoid, Rminus.
  destruct ac; reflexivity.
Qed.

Lemma calculateDelta_put_real (n : string) (ac : Action) (K q p cp : R)
  (Pr : number) :
  cp <> 0%R ->
  calculateDelta (mkStrategy n [mkLeg put ac (Fin K) Pr (Fin q)]) (Fin p) (Fin cp)
  = Fin (0 + (sigmoid ((p - K) / (cp * 0.1)) - 1)
             * (match ac with buy => 1 | sell => -1 end) * q).
Proof.
  intros Hcp. unfold calculateDelta, multiplier_of. cbn.
  rewrite (Reqb_false (cp * 0.1) 0) by lra. cbn.
  pose proof (exp_pos ((p + - K) / (cp * 0.1))).
  rewrite Reqb_false by lra. rewrite <- sigmoid_complement. unfold Rminus.
  destruct ac; reflexivity.
Qed.

(** For a current price other than zero and a quantity [q > 0], the Delta
    of a long call lies between [0] and [q] and the Delta of a long put
    between [-q] and [0]; at the strike they are [0.5*q] and [-0.5*q]. *)
Theorem delta_range (n : string) (K q p cp : R) (Pr Pr' : number) :
  cp <> 0%R -> (0 < q)%R ->
  let C := mkStrategy n [mkLeg call buy (Fin K) Pr (Fin q)] in
  let P := mkStrategy n [mkLeg put buy (Fin K) Pr' (Fin q)] in
  (Fin 0 <= calculateDelta C (Fin p) (Fin cp))%num
  /\ (calculateDelta C (Fin p) (Fin cp) <= Fin q)%num
  /\ (Fin (- q) <= calculateDelta P (Fin p) (Fin cp))%num
  /\ (calculateDelta P (Fin p) (Fin cp) <= Fin 0)%num
  /\ calculateDelta C (Fin K) (Fin cp) = Fin (0.5 * q)
  /\ calculateDelta P (Fin K) (Fin cp) = Fin (- 0.5 * q).
Proof.
  intros Hcp Hq C P. unfold C, P, nle.
  rewrite !calculateDelta_call_real, !calculateDelta_put_real by assumption.
  pose proof (sigmoid_range ((p - K) / (cp * 0.1))) as Hs.
  assert (E : sigmoid ((K - K) / (cp * 0.1)) = 0.5%R).
  { replace ((K - K) / (cp * 0.1))%R with 0%R by (field; lra).
    unfold sigmoid. rewrite Ropp_0, exp_0. lra. }
  rewrite E. cbn.
  repeat split; try (apply Rleb_true; nra); f_equal; lra.
Qed.

Lemma delta_range_witness :
  (calculateDelta (mkStrategy "C" [mkLeg call buy (Fin 100) (Fin 5) (Fin 2)])
     (Fin 104) (Fin 100) <= Fin 2)%num.
Proof.
  apply (delta_range "C" 100 2 104 100 (Fin 5) (Fin 3)); lra.
Defined.

Lemma sigmoid_monotone (x y : R) : (x <= y)%R -> (sigmoid x <= sigmoid y)%R.
Proof.
  intros [H | ->]; [left; now apply sigmoid_increasing | lra].
Qed.

(** For a current price [> 0] and a quantity [q >= 0], the Delta of a long
    call and the Delta of a long put never decrease as the swept price
    rises. *)
Theorem delta_monotone (n : string) (ty : OptionType) (K q p1 p2 cp : R)
  (Pr : number) :
  (0 < cp)%R -> (0 <= q)%R -> (p1 <= p2)%R ->
  let S := mkStrategy n [mkLeg ty buy (Fin K) Pr (Fin q)] in
  (calculateDelta S (Fin p1) (Fin cp) <= calculateDelta S (Fin p2) (Fin cp))%num.
Proof.
  intros Hcp Hq Hp S. unfold S, nle.
  assert (Hx : ((p1 - K) / (cp * 0.1) <= (p2 - K) / (cp * 0.1))%R).
  { unfold Rdiv. apply Rmult_le_compat_r; [| lra].
    left. apply Rinv_0_lt_compat. lra. }
  pose proof (sigmoid_monotone _ _ Hx).
  destruct ty;
    rewrite ?calculateDelta_call_real, ?calculateDelta_put_real by lra;
    cbn; apply Rleb_true; nra.
Qed.

Lemma delta_monotone_witness :
  let S := mkStrategy "P" [mkLeg put buy (Fin 100) (Fin 3) (Fin 1)] in
  (calculateDelta S (Fin 95) (Fin 100) <= calculateDelta S (Fin 105) (Fin 100))%num.
Proof.
  intros S. apply (delta_monotone "P" put 100 1 95 105 100 (Fin 3)); lra.
Defined.

(** ** Gamma, Theta and Vega *)

Lemma exp_nonpos_le_1 (x : R) : (x <= 0)%R -> (exp x <= 1)%R.
Proof.
  intros [H | ->]; [| rewrite exp_0; lra].
  left. rewrite <- exp_0. now apply exp_increasing.
Qed.

Lemma calculateGamma_real (n : string) (ty : OptionType) (ac : Action)
  (K q p cp : R) (Pr : number) :
  cp <> 0%R ->
  calculateGamma (mkStrategy n [mkLeg ty ac (Fin K) Pr (Fin q)]) (Fin p) (Fin cp)
  = Fin (0 + exp (- (Rabs (p - K) / (cp * 0.1) * (Rabs (p - K) / (cp * 0.1))))
             * 0.02 * (match ac with buy => 1 | sell => -1 end) * q).
Proof.
  intros Hcp. unfold calculateGamma, multiplier_of. cbn.
  rewrite (Reqb_false (cp * 0.1) 0) by lra. cbn. unfold Rminus.
  destruct ac; reflexivity.
Qed.

(** For a current price other than zero and a quantity [q >= 0], the Gamma
    of a long leg, call or put, is never negative and is greatest at the
    strike, where it is [0.02*q]. *)
Theorem gamma_peaks_at_strike (n : string) (ty : OptionType) (K q p cp : R)
  (Pr : number) :
  cp <> 0%R -> (0 <= q)%R ->
  let S := mkStrategy n [mkLeg ty buy (Fin K) Pr (Fin q)] in
  (Fin 0 <= calculateGamma S (Fin p) (Fin cp))%num
  /\ (calculateGamma S (Fin p) (Fin cp) <= calculateGamma S (Fin K) (Fin cp))%num
  /\ calculateGamma S (Fin K) (Fin cp) = Fin (0.02 * q).
Proof.
  intros Hcp Hq S. unfold S, nle.
  rewrite !calculateGamma_real by assumption.
  replace (K - K)%R with 0%R by lra. rewrite Rabs_R0.
  replace (- (0 / (cp * 0.1) * (0 / (cp * 0.1))))%R with 0%R
    by (field; lra).
  rewrite exp_0.
  set (t := (Rabs (p - K) / (cp * 0.1))%R).
  pose proof (exp_pos (- (t * t))) as He.
  assert (Hle : (exp (- (t * t)) <= 1)%R)
    by (apply exp_nonpos_le_1; nra).
  cbn. repeat split.
  - apply Rleb_true. nra.
  - apply Rleb_true. nra.
  - f_equal. lra.
Qed.

Lemma gamma_peaks_at_strike_witness :
  let S := mkStrategy "P" [mkLeg put buy (Fin 100) (Fin 3) (Fin 2)] in
  (calculateGamma S (Fin 93) (Fin 100) <= calculateGamma S (Fin 100) (Fin 100))%num.
Proof.
  intros S. apply (gamma_peaks_at_strike "P" put 100 2 93 100 (Fin 3)); lra.
Defined.

Lemma Rmult_nonneg5 (a b c d e : R) :
  (0 <= a)%R -> (0 <= b)%R -> (0 <= c)%R -> (0 <= d)%R -> (0 <= e)%R ->
  (0 <= a * b * c * d * e)%R.
Proof. intros. repeat apply Rmult_le_pos; assumption. Qed.

Lemma calculateTheta_real (n : string) (ty : OptionType) (ac : Action)
  (K Pr q p cp d : R) :
  cp <> 0%R -> (0 <= d)%R ->
  calculateTheta (mkStrategy n [mkLeg ty ac (Fin K) (Fin Pr) (Fin q)])
    (Fin p) (Fin cp) (Some (Fin d))
  = Fin (0 + - Pr * 0.03
             * exp (- (Rabs (p - K) / cp * (Rabs (p - K) / cp)) * 2)
             * sqrt (d / 30)
             * (match ac with buy => 1 | sell => -1 end) * q).
Proof.
  intros Hcp Hd. unfold calculateTheta, multiplier_of, default_to. cbn.
  rewrite (Reqb_false cp 0), (Reqb_false 30 0) by lra. cbn.
  rewrite (Rltb_false (d / 30) 0)
    by (apply Rmult_le_pos; [lra | left; apply Rinv_0_lt_compat; lra]).
  unfold Rminus. destruct ac; reflexivity.
Qed.

Lemma calculateVega_real (n : string) (ty : OptionType) (ac : Action)
  (K Pr q p cp d : R) :
  cp <> 0%R -> (0 <= d)%R ->
  calculateVega (mkStrategy n [mkLeg ty ac (Fin K) (Fin Pr) (Fin q)])
    (Fin p) (Fin cp) (Some (Fin d))
  = Fin (0 + Pr * 0.15
             * exp (- (Rabs (p - K) / cp * (Rabs (p - K) / cp)) * 3)
             * sqrt (d / 30)
             * (match ac with buy => 1 | sell => -1 end) * q).
Proof.
  intros Hcp Hd. unfold calculateVega, multiplier_of, default_to. cbn.
  rewrite (Reqb_false cp 0), (Reqb_false 30 0) by lra. cbn.
  rewrite (Rltb_false (d / 30) 0)
    by (apply Rmult_le_pos; [lra | left; apply Rinv_0_lt_compat; lra]).
  unfold Rminus. destruct ac; reflexivity.
Qed.

(** For a current price other than zero, a premium [>= 0], a quantity
    [>= 0] and days to expiration [>= 0], the Theta of a long leg is never
    positive and its Vega never negative. *)
Theorem theta_vega_sign (n : string) (ty : OptionType) (K Pr q p cp d : R) :
  cp <> 0%R -> (0 <= Pr)%R -> (0 <= q)%R -> (0 <= d)%R ->
  let S := mkStrategy n [mkLeg ty buy (Fin K) (Fin Pr) (Fin q)] in
  (calculateTheta S (Fin p) (Fin cp) (Some (Fin d)) <= Fin 0)%num
  /\ (Fin 0 <= calculateVega S (Fin p) (Fin cp) (Some (Fin d)))%num.
Proof.
  intros Hcp HPr Hq Hd S. unfold S, nle.
  rewrite calculateTheta_real, calculateVega_real by assumption.
  remember (exp (- (Rabs (p - K) / cp * (Rabs (p - K) / cp)) * 2)) as E2
    eqn:HE2.
  remember (exp (- (Rabs (p - K) / cp * (Rabs (p - K) / cp)) * 3)) as E3
    eqn:HE3.
  remember (sqrt (d / 30)) as s eqn:Hs.
  assert (0 < E2)%R by (subst E2; apply exp_pos).
  assert (0 < E3)%R by (subst E3; apply exp_pos).
  assert (0 <= s)%R by (subst s; apply sqrt_pos).
  clear HE2 HE3 Hs.
  assert (0 <= Pr * 0.03 * E2 * s * q)%R by (apply Rmult_nonneg5; lra).
  assert (0 <= Pr * 0.15 * E3 * s * q)%R by (apply Rmult_nonneg5; lra).
  cbn. split; apply Rleb_true; lra.
Qed.

Lemma theta_vega_sign_witness :
  let S := mkStrategy "C" [mkLeg call buy (Fin 100) (Fin 5) (Fin 1)] in
  (calculateTheta S (Fin 97) (Fin 100) (Some (Fin 45)) <= Fin 0)%num.
Proof.
  intros S. apply (theta_vega_sign "C" call 100 5 1 97 100 45); lra.
Defined.

(** At the money and with 30 days to expiration, the value the curve
    generator passes, a long leg loses [3%] of its premium a day and gains
    [15%] of its premium for a point of volatility: its Theta is
    [-0.03*Pr*q] and its Vega [0.15*Pr*q]. *)
Theorem theta_vega_at_the_money (n : string) (ty : OptionType)
  (K Pr q cp : R) :
  cp <> 0%R ->
  let S := mkStrategy n [mkLeg ty buy (Fin K) (Fin Pr) (Fin q)] in
  calculateTheta S (Fin K) (Fin cp) (Some (Fin 30)) = Fin (- (0.03 * Pr * q))
  /\ calculateVega S (Fin K) (Fin cp) (Some (Fin 30)) = Fin (0.15 * Pr * q)
  /\ calculateTheta S (Fin K) (Fin cp) None
     = calculateTheta S (Fin K) (Fin cp) (Some (Fin 30))
  /\ calculateVega S (Fin K) (Fin cp) None
     = calculateVega S (Fin K) (Fin cp) (Some (Fin 30)).
Proof.
  intros Hcp S. unfold S.
  split; [| split; [| split; reflexivity]].
  - rewrite calculateTheta_real by lra.
    replace (K - K)%R with 0%R by lra. rewrite Rabs_R0.
    replace (- (0 / cp * (0 / cp)) * 2)%R with 0%R by (field; lra).
    replace (30 / 30)%R with 1%R by lra.
    rewrite exp_0, sqrt_1. f_equal. lra.
  - rewrite calculateVega_real by lra.
    replace (K - K)%R with 0%R by lra. rewrite Rabs_R0.
    replace (- (0 / cp * (0 / cp)) * 3)%R with 0%R by (field; lra).
    replace (30 / 30)%R with 1%R by lra.
    rewrite exp_0, sqrt_1. f_equal. lra.
Qed.

Lemma theta_vega_at_the_money_witness :
  calculateTheta (mkStrategy "C" [mkLeg call buy (Fin 100) (Fin 5) (Fin 2)])
    (Fin 100) (Fin 100) (Some (Fin 30)) = Fin (- (0.03 * 5 * 2)).
Proof.
  apply (theta_vega_at_the_money "C" call 100 5 2 100). lra.
Defined.

(** ** More on the premium estimator *)

Lemma time_value_nonneg (K cp d : R) :
  (0 < cp)%R ->
  (0 <= cp * 0.25 * sqrt (d / 365) * 0.4
        * exp (- (5 * Rabs (cp - K) / cp) ^ 2))%R.
Proof.
  intros Hcp. pose proof (sqrt_pos (d / 365)).
  pose proof (exp_pos (- (5 * Rabs (cp - K) / cp) ^ 2)).
  apply Rmult_nonneg5; lra.
Qed.

(** For a current price [> 0] and days to expiration [>= 0], the estimate
    is never below the intrinsic value of the option; at the money
    ([strike = currentPrice]) it is
    [max(0.05, currentPrice*0.25*sqrt(days/365)*0.4)], the same for a call
    and a put. *)
Theorem premium_covers_intrinsic (ty : OptionType) (K cp d : R) :
  (0 < cp)%R -> (0 <= d)%R ->
  (Fin (intrinsic ty K cp)
   <= calculateRealisticPremium ty (Fin K) (Fin cp) (Some (Fin d)))%num
  /\ calculateRealisticPremium ty (Fin cp) (Fin cp) (Some (Fin d))
     = Fin (Rmax 0.05 (cp * 0.25 * sqrt (d / 365) * 0.4)).
Proof.
  intros Hcp Hd. rewrite !calculateRealisticPremium_real by assumption.
  split.
  - unfold nle. cbn. apply Rleb_true. unfold premium_formula.
    pose proof (time_value_nonneg K cp d Hcp).
    eapply Rle_trans; [| apply Rmax_r]. lra.
  - f_equal. unfold premium_formula, intrinsic.
    replace (cp - cp)%R with 0%R by lra. rewrite Rabs_R0.
    replace (- (5 * 0 / cp) ^ 2)%R with 0%R by (field; lra).
    rewrite exp_0. f_equal.
    destruct ty; rewrite Rmax_left by lra; lra.
Qed.

Lemma premium_covers_intrinsic_witness :
  (Fin (intrinsic call 90 100)
   <= calculateRealisticPremium call (Fin 90) (Fin 100) (Some (Fin 30)))%num.
Proof. apply (premium_covers_intrinsic call 90 100 30); lra. Defined.

(** For a current price [> 0], more days to expiration never make the
    estimate smaller. *)
Theorem premium_monotone_in_days (ty : OptionType) (K cp d1 d2 : R) :
  (0 < cp)%R -> (0 <= d1 <= d2)%R ->
  (calculateRealisticPremium ty (Fin K) (Fin cp) (Some (Fin d1))
   <= calculateRealisticPremium ty (Fin K) (Fin cp) (Some (Fin d2)))%num.
Proof.
  intros Hcp [Hd1 Hd]. rewrite !calculateRealisticPremium_real by lra.
  unfold nle. cbn. apply Rleb_true. unfold premium_formula.
  assert (Hs : (sqrt (d1 / 365) <= sqrt (d2 / 365))%R).
  { apply sqrt_le_1_alt. unfold Rdiv. apply Rmult_le_compat_r; [| assumption].
    left. apply Rinv_0_lt_compat. lra. }
  pose proof (exp_pos (- (5 * Rabs (cp - K) / cp) ^ 2)) as He.
  apply Rle_max_compat_l.
  apply Rplus_le_compat_l.
  apply Rmult_le_compat_r; [lra |].
  apply Rmult_le_compat_r; [lra |].
  apply Rmult_le_compat_l; [lra | assumption].
Qed.

Lemma premium_monotone_in_days_witness :
  (calculateRealisticPremium put (Fin 95) (Fin 100) (Some (Fin 7))
   <= calculateRealisticPremium put (Fin 95) (Fin 100) (Some (Fin 60)))%num.
Proof. apply (premium_monotone_in_days put 95 100 7 60); lra. Defined.

(** For a current price [> 0], the estimate is NaN exactly when the days to
    expiration are negative. *)
Theorem premium_NaN_iff_negative_days (ty : OptionType) (K cp d : R) :
  (0 < cp)%R ->
  calculateRealisticPremium ty (Fin K) (Fin cp) (Some (Fin d)) = NaN
  <-> (d < 0)%R.
Proof.
  intros Hcp. split.
  - intros E. destruct (Rlt_dec d 0) as [H | H]; [assumption |].
    rewrite calculateRealisticPremium_real in E by lra. discriminate.
  - apply calculateRealisticPremium_NaN.
Qed.

Lemma premium_NaN_iff_negative_days_witness :
  calculateRealisticPremium call (Fin 100) (Fin 120) (Some (Fin (-1))) = NaN.
Proof.
  apply (premium_NaN_iff_negative_days call 100 120 (-1)); lra.
Defined.

(** ** The sampled window *)

Lemma generatePayoffData_window (S : Strategy) (cp pr : R) :
  generatePayoffData S (Fin cp) (Some (Fin pr))
  = map (curve_point S (Fin cp) (Fin (cp + - (cp * pr)))
           (Fin ((cp + cp * pr + - (cp + - (cp * pr))) / 200)))
        (seq 0 201).
Proof.
  unfold generatePayoffData, default_to, of_nat. cbn [nmul nsub nadd nneg ndiv].
  change (IZR (Z.of_nat 200)) with 200%R.
  now rewrite (Reqb_false 200 0) by lra.
Qed.

Lemma nth_sampled (f : nat -> CurvePoint) (n i : nat) :
  (i < n)%nat -> nth i (map f (seq 0 n)) no_point = f i.
Proof.
  intros Hi.
  rewrite (nth_indep _ no_point (f 0%nat))
    by now rewrite length_map, length_seq.
  rewrite map_nth, seq_nth by assumption. reflexivity.
Qed.

(** For a real current price and price range, the curve starts at
    [currentPrice - currentPrice*priceRange], its sample of index [i] is at
    that price plus [i] steps of a two-hundredth of the window, and, when
    [currentPrice*priceRange >= 0], its prices never decrease along the
    curve. *)
Theorem generatePayoffData_prices (S : Strategy) (cp pr : R) :
  let curve := generatePayoffData S (Fin cp) (Some (Fin pr)) in
  let start := (cp - cp * pr)%R in
  let stepSize := ((cp + cp * pr - start) / 200)%R in
  price (nth 0 curve no_point) = Fin start
  /\ (forall i : nat, (i <= 200)%nat ->
      price (nth i curve no_point)
      = Fin (start + IZR (Z.of_nat i) * stepSize))
  /\ ((0 <= cp * pr)%R ->
      forall i j : nat, (i <= j <= 200)%nat ->
        (price (nth i curve no_point) <= price (nth j curve no_point))%num).
Proof.
  intros curve start stepSize. unfold curve, start, stepSize.
  rewrite generatePayoffData_window.
  split; [| split].
  - rewrite nth_sampled by lia. cbn. f_equal. lra.
  - intros i Hi. rewrite nth_sampled by lia. reflexivity.
  - intros Hpos i j Hij. rewrite !nth_sampled by lia.
    unfold nle, curve_point, of_nat. cbn. apply Rleb_true.
    assert (IZR (Z.of_nat i) <= IZR (Z.of_nat j))%R by (apply IZR_le; lia).
    nra.
Qed.

Lemma generatePayoffData_prices_witness :
  let curve :=
    generatePayoffData (mkStrategy "Empty Strategy" []) (Fin 100)
      (Some (Fin 0.15)) in
  (price (nth 3 curve no_point) <= price (nth 4 curve no_point))%num.
Proof.
  intros curve.
  apply (generatePayoffData_prices (mkStrategy "Empty Strategy" []) 100 0.15);
    [lra | lia].
Defined.

(** ** Maximum profit and maximum loss *)

Lemma extrema_bounds (l : list number) :
  Forall (fun y => is_finite y = true) l -> l <> [] ->
  exists m n : R,
    maximum l = Fin m /\ minimum l = Fin n
    /\ In (Fin m) l /\ In (Fin n) l
    /\ forall y : R, In (Fin y) l -> (n <= y <= m)%R.
Proof.
  induction 1 as [|x l Hx HF IH]; [congruence | intros _].
  destruct x as [| | |a]; try discriminate.
  destruct l as [|b l].
  - exists a, a. cbn.
    do 4 (split; [now (reflexivity || left) |]).
    intros y [E | []]. injection E as ->. lra.
  - destruct IH as (m & n & Em & En & Im & In_ & Hb); [discriminate |].
    exists (Rmax a m), (Rmin a n).
    cbn [maximum minimum]. cbn [maximum minimum] in Em, En.
    rewrite Em, En. cbn [Math.max Math.min].
    split; [reflexivity |]. split; [reflexivity |].
    split; [| split].
    + unfold Rmax. destruct (Rle_dec a m); [now right | now left].
    + unfold Rmin. destruct (Rle_dec a n); [now left | now right].
    + intros y [E | H].
      * injection E as <-. split; [apply Rmin_l | apply Rmax_l].
      * specialize (Hb y H). split.
        -- eapply Rle_trans; [apply Rmin_r | lra].
        -- eapply Rle_trans; [| apply Rmax_r]. lra.
Qed.

Lemma generatePayoffData_finite (S : Strategy) (cp : R) :
  real_strategy S = true ->
  Forall (fun y => is_finite y = true)
         (map payoff (generatePayoffData S (Fin cp) None)).
Proof.
  intros HS. rewrite generatePayoffData_real, map_map.
  apply Forall_forall. intros y Hy. apply in_map_iff in Hy.
  destruct Hy as (i & <- & _). unfold curve_point, of_nat. cbn.
  match goal with
  | |- context [calculateStrategyPayoff S (Fin ?x)] =>
      destruct (calculateStrategyPayoff_real S x HS) as [v ->]
  end.
  reflexivity.
Qed.

(** For a strategy with real fields and a real current price, the maximum
    profit and the maximum loss reported are payoffs of points of the
    curve, and every payoff of the curve lies between them. *)
Theorem stats_extrema_attained (S : Strategy) (cp : R) :
  real_strategy S = true ->
  let curve := generatePayoffData S (Fin cp) None in
  let stats := calculateStrategyStats S (Fin cp) in
  exists m n : R,
    maxProfit stats = Fin m /\ maxLoss stats = Fin n
    /\ (exists pt, In pt curve /\ payoff pt = Fin m)
    /\ (exists pt, In pt curve /\ payoff pt = Fin n)
    /\ forall pt, In pt curve ->
         exists y : R, payoff pt = Fin y /\ (n <= y <= m)%R.
Proof.
  intros HS curve stats.
  pose proof (generatePayoffData_finite S cp HS) as HF. fold curve in HF.
  assert (HN : map payoff curve <> []).
  { intros E. apply (f_equal (@length number)) in E.
    unfold curve in E. rewrite length_map, generatePayoffData_length in E.
    discriminate. }
  destruct (extrema_bounds _ HF HN) as (m & n & Em & En & Im & In_ & Hb).
  exists m, n.
  unfold stats, calculateStrategyStats. fold curve. cbn [maxProfit maxLoss].
  rewrite max_list_maximum, min_list_minimum, Em, En. cbn.
  repeat split.
  - apply in_map_iff in Im. destruct Im as (pt & E & Hpt). now exists pt.
  - apply in_map_iff in In_. destruct In_ as (pt & E & Hpt). now exists pt.
  - intros pt Hpt.
    assert (Hin : In (payoff pt) (map payoff curve)) by now apply in_map.
    rewrite Forall_forall in HF. specialize (HF _ Hin).
    destruct (payoff pt) as [| | |y]; try discriminate.
    exists y. split; [reflexivity | now apply Hb].
Qed.

Lemma stats_extrema_attained_witness :
  let S := mkStrategy "Long Call" [mkLeg call buy (Fin 100) (Fin 5) (Fin 1)] in
  exists m n : R,
    maxProfit (calculateStrategyStats S (Fin 100)) = Fin m
    /\ maxLoss (calculateStrategyStats S (Fin 100)) = Fin n
    /\ (exists pt, In pt (generatePayoffData S (Fin 100) None)
                   /\ payoff pt = Fin m)
    /\ (exists pt, In pt (generatePayoffData S (Fin 100) None)
                   /\ payoff pt = Fin n)
    /\ forall pt, In pt (generatePayoffData S (Fin 100) None) ->
         exists y : R, payoff pt = Fin y /\ (n <= y <= m)%R.
Proof.
  intros S. apply (stats_extrema_attained S 100). reflexivity.
Defined.

(** ** Profit probability *)

(** Whatever the strategy and the current price, the profit probability is
    [k/201*100] for the number [k] of points of the curve with a positive
    payoff: a real number between 0 and 100. *)
Theorem profitProbability_range (S : Strategy) (currentPrice : number) :
  let curve := generatePayoffData S currentPrice None in
  let k := length (filter (fun pt => payoff pt >? Fin 0)%num curve) in
  profitProbability (calculateStrategyStats S currentPrice)
  = Fin (INR k / 201 * 100)
  /\ (0 <= INR k / 201 * 100 <= 100)%R.
Proof.
  intros curve k. unfold calculateStrategyStats. cbn [profitProbability].
  fold curve. rewrite filter_map_length. fold k.
  rewrite length_map. unfold curve at 1. rewrite generatePayoffData_length.
  unfold of_nat. change (IZR (Z.of_nat 201)) with 201%R.
  cbn [ndiv nmul]. rewrite (Reqb_false 201 0) by lra.
  rewrite <- INR_IZR_INZ. split; [reflexivity |].
  assert (Hk : (k <= 201)%nat).
  { unfold k. rewrite <- (generatePayoffData_length S currentPrice None).
    apply filter_length_le. }
  apply le_INR in Hk. pose proof (pos_INR k).
  rewrite (INR_IZR_INZ 201) in Hk.
  change (IZR (Z.of_nat 201)) with 201%R in Hk.
  lra.
Qed.

(** ** The empty strategy and the page's fallback *)

Lemma constant_extrema (l : list number) (a : R) :
  Forall (fun y => y = Fin a) l -> l <> [] ->
  maximum l = Fin a /\ minimum l = Fin a.
Proof.
  induction 1 as [|x l -> _ IH]; [congruence | intros _].
  destruct l as [|b l]; [split; reflexivity |].
  destruct IH as [Em En]; [discriminate |].
  cbn [maximum minimum] in *. rewrite Em, En. cbn.
  unfold Rmax, Rmin. destruct (Rle_dec a a); split; reflexivity.
Qed.

Lemma crossings_constant (data : list CurvePoint) (a : R) :
  Forall (fun pt => payoff pt = Fin a) data -> crossings data = [].
Proof.
  intros H. unfold crossings. rewrite filter_none; [reflexivity |].
  intros [prev curr] Hin. rewrite Forall_forall in H.
  pose proof (H prev (in_combine_l _ _ _ _ Hin)) as Hp.
  assert (Hc : In curr data).
  { apply in_combine_r in Hin. destruct data; [contradiction | now right]. }
  apply H in Hc. unfold opposite_sides, ngtb. rewrite Hp, Hc. cbn.
  unfold Rleb, Rltb.
  destruct (Rle_dec a 0), (Rlt_dec 0 a); try reflexivity; lra.
Qed.

(** A strategy without legs pays nothing at any price and has no
    sensitivity; its statistics are a maximum profit and a maximum loss of
    0, no breakeven and a profit probability of 0.  These are the constants
    the page shows when no template is selected, so that they agree with the
    curve it draws then. *)
Theorem empty_strategy_flat (n : string) (currentPrice : number)
  (priceRange : option number) :
  let S := mkStrategy n [] in
  (forall pt, In pt (generatePayoffData S currentPrice priceRange) ->
     payoff pt = Fin 0 /\ delta pt = Fin 0 /\ gamma pt = Fin 0
     /\ theta pt = Fin 0 /\ vega pt = Fin 0)
  /\ calculateStrategyStats S currentPrice = mkStats (Fin 0) (Fin 0) [] (Fin 0)
  /\ strategyStats None currentPrice
     = calculateStrategyStats (mkStrategy "Empty Strategy" []) currentPrice
  /\ payoffData None currentPrice
     = generatePayoffData (mkStrategy "Empty Strategy" []) currentPrice None.
Proof.
  intros S.
  assert (Hflat : forall pr pt, In pt (generatePayoffData S currentPrice pr) ->
            payoff pt = Fin 0 /\ delta pt = Fin 0 /\ gamma pt = Fin 0
            /\ theta pt = Fin 0 /\ vega pt = Fin 0).
  { intros pr pt Hin. unfold generatePayoffData in Hin.
    apply in_map_iff in Hin. destruct Hin as (i & <- & _).
    repeat split. }
  assert (Hstats : forall m, calculateStrategyStats (mkStrategy m []) currentPrice
                             = mkStats (Fin 0) (Fin 0) [] (Fin 0)).
  { intros m.
    assert (Hp : Forall (fun pt => payoff pt = Fin 0)
                   (generatePayoffData (mkStrategy m []) currentPrice None)).
    { apply Forall_forall. intros pt Hin. unfold generatePayoffData in Hin.
      apply in_map_iff in Hin. destruct Hin as (i & <- & _). reflexivity. }
    unfold calculateStrategyStats.
    set (curve := generatePayoffData (mkStrategy m []) currentPrice None) in *.
    assert (Hpay : Forall (fun y => y = Fin 0) (map payoff curve)).
    { apply Forall_forall. intros y Hy. apply in_map_iff in Hy.
      destruct Hy as (pt & <- & Hpt). rewrite Forall_forall in Hp. now apply Hp. }
    assert (HN : map payoff curve <> []).
    { intros E. apply (f_equal (@length number)) in E.
      unfold curve in E. rewrite length_map, generatePayoffData_length in E.
      discriminate. }
    destruct (constant_extrema _ 0 Hpay HN) as [Em En].
    rewrite max_list_maximum, min_list_minimum, Em, En.
    rewrite breakeven_loop_crossings, (crossings_constant curve 0 Hp).
    rewrite filter_none.
    2:{ intros y Hy. rewrite Forall_forall in Hpay. rewrite (Hpay y Hy).
        unfold ngtb. cbn. apply Rltb_false. lra. }
    rewrite length_map. unfold curve. rewrite generatePayoffData_length.
    unfold of_nat. cbn [length].
    change (IZR (Z.of_nat 0)) with 0%R. change (IZR (Z.of_nat 201)) with 201%R.
    cbn. rewrite (Reqb_false 201 0) by lra. cbn.
    f_equal. f_equal. lra. }
  split; [apply Hflat | split; [apply Hstats | split]].
  - cbn [strategyStats]. now rewrite Hstats.
  - reflexivity.
Qed.

(** ** Where the breakevens lie *)

Lemma crossings_within (hi : R) (rest : list CurvePoint) :
  forall (pt : CurvePoint) (x y : R),
    price pt = Fin x -> payoff pt = Fin y -> asc_curve x rest ->
    (forall q x', In q rest -> price q = Fin x' -> (x' <= hi)%R) ->
    Forall (within x hi) (crossings (pt :: rest)).
Proof.
  induction rest as [|pt' rest IH]; intros pt x y Hx Hy Hasc Hhi.
  - constructor.
  - inversion Hasc as [|lo x' y' pt0 rest0 Hx' Hy' Hle Hrest]; subst.
    assert (Htail : Forall (within x hi) (crossings (pt' :: rest))).
    { eapply Forall_impl;
        [| apply (IH pt' x' y' Hx' Hy' Hrest);
           intros q z Hq; apply Hhi; now right].
      intros [| | |b]; cbn; trivial. lra. }
    rewrite crossings_cons. unfold found.
    destruct (opposite_sides (pt, pt')) eqn:Hopp; cbn [app]; [| exact Htail].
    destruct (interpolate_between pt pt' x y x' y' Hx Hy Hx' Hy' Hle Hopp)
      as (b & -> & Hb).
    constructor; [| exact Htail].
    cbn. pose proof (Hhi pt' x' (or_introl eq_refl) Hx'). lra.
Qed.

Lemma breakevens_facts (S : Strategy) (cp : R) :
  no_infinite_field S = true -> (0 < cp)%R ->
  let l := breakeven (calculateStrategyStats S (Fin cp)) in
  StronglySorted nle l
  /\ Forall (within (cp - cp * 0.15) (cp + cp * 0.15)) l.
Proof.
  intros HS Hcp l.
  assert (E : l = crossings (generatePayoffData S (Fin cp) None)).
  { unfold l, calculateStrategyStats. cbn [breakeven].
    apply breakeven_loop_crossings. }
  rewrite E. clear E l.
  destruct (real_or_NaN S HS) as [Hreal | HNaN].
  - split.
    + destruct (generatePayoffData_asc S cp Hreal Hcp) as [lo Hasc].
      now apply (asc_curve_crossings_sorted lo).
    + rewrite generatePayoffData_real.
      set (s := (cp + - (cp * 0.15))%R).
      set (h := ((cp + cp * 0.15 + - (cp + - (cp * 0.15))) / 200)%R).
      assert (Hh : (0 <= h)%R) by (unfold h; lra).
      change (seq 0 201) with (0%nat :: seq 1 200). cbn [map].
      destruct (calculateStrategyPayoff_real S (grid s h 0) Hreal) as [y Hy].
      replace (cp - cp * 0.15)%R with (grid s h 0)
        by (unfold grid, s; cbn; lra).
      apply (crossings_within _ _ _ (grid s h 0) y); [reflexivity | exact Hy | |].
      * apply (asc_curve_weaken _ (grid s h 1));
          [apply grid_succ; assumption
          | apply (sampled_curve_asc S (Fin cp) s h Hreal Hh)].
      * intros q x' Hq Hx'. apply in_map_iff in Hq.
        destruct Hq as (i & <- & Hi). apply in_seq in Hi.
        cbn in Hx'. injection Hx' as <-.
        assert (IZR (Z.of_nat i) <= 200)%R by (apply IZR_le; lia).
        unfold s, h. nra.
  - assert (E : crossings (generatePayoffData S (Fin cp) None) = []).
    { apply crossings_NaN. unfold generatePayoffData.
      apply Forall_forall. intros pt Hin.
      apply in_map_iff in Hin. destruct Hin as [i [<- _]].
      now apply calculateStrategyPayoff_NaN. }
    rewrite E. split; constructor.
Qed.



(** The breakeven the page shows, [breakeven[0] || 0], is the lowest of the
    breakevens reported, and 0 when there is none (same hypotheses). *)
Theorem shownBreakeven_lowest (S : Strategy) (cp : R) :
  no_infinite_field S = true -> (0 < cp)%R ->
  let stats := calculateStrategyStats S (Fin cp) in
  (breakeven stats = [] -> shownBreakeven stats = Fin 0)
  /\ (breakeven stats <> [] -> In (shownBreakeven stats) (breakeven stats))
  /\ forall b, In b (breakeven stats) -> (shownBreakeven stats <= b)%num.
Proof.
  intros HS Hcp stats.
  destruct (breakevens_facts S cp HS Hcp) as [Hsorted Hwin].
  fold stats in Hsorted, Hwin. unfold shownBreakeven.
  destruct (breakeven stats) as [|b0 l]; cbn [nth_error or_else].
  - split; [reflexivity | split; [congruence | intros b []]].
  - inversion Hwin as [|? ? Hb0 _]; subst.
    destruct b0 as [| | |r]; try contradiction.
    assert (E : (if truthy (Fin r) then Fin r else Fin 0) = Fin r).
    { cbn. unfold Reqb. destruct (Req_dec_T r 0) as [-> | _]; reflexivity. }
    rewrite E. split; [discriminate | split; [intros _; now left |]].
    intros b [<- | Hb].
    + unfold nle. cbn. apply Rleb_true. lra.
    + inversion Hsorted as [|? ? _ Hall]; subst.
      rewrite Forall_forall in Hall. now apply Hall.
Qed.

Lemma shownBreakeven_lowest_witness :
  let S := mkStrategy "Long Call" [mkLeg call buy (Fin 100) (Fin 5) (Fin 1)] in
  (shownBreakeven (calculateStrategyStats S (Fin 100)) <= Fin 105)%num.
Proof.
  intros S.
  apply (shownBreakeven_lowest S 100); [reflexivity | lra |].
  exact long_call_breakeven.
Defined.

(** ** The page: days to expiration *)

Lemma ceil_spec (x : R) :
  (x <= IZR (1 - up (- x)) < x + 1)%R.
Proof.
  destruct (archimed (- x)) as [H1 H2]. rewrite minus_IZR. lra.
Qed.

Lemma Rmax_IZR (a b : Z) : Rmax (IZR a) (IZR b) = IZR (Z.max a b).
Proof.
  unfold Rmax. destruct (Rle_dec (IZR a) (IZR b)) as [H | H].
  - apply le_IZR in H. f_equal. lia.
  - assert (b < a)%Z by (apply lt_IZR; lra). f_equal. lia.
Qed.

Lemma daysToExpiration_real (e now : R) :
  e <> 0%R ->
  daysToExpiration (Some (Fin e)) (Fin now)
  = Fin (IZR (Z.max 1 (1 - up (- (Rabs (e * 1000 - now)
                                    / (1000 * 60 * 60 * 24)))))).
Proof.
  intros He. unfold daysToExpiration, truthy.
  rewrite (Reqb_false e 0) by assumption. cbn.
  rewrite Reqb_false by lra. cbn. now rewrite <- Rmax_IZR.
Qed.

Lemma daysToExpiration_integer (expiration : option R) (now : R) :
  exists z : Z,
    daysToExpiration (option_map Fin expiration) (Fin now) = Fin (IZR z)
    /\ (1 <= z)%Z.
Proof.
  destruct expiration as [e |]; cbn [option_map].
  - destruct (Req_dec_T e 0) as [-> | He].
    + exists 30%Z. split; [| lia].
      unfold daysToExpiration, truthy. now rewrite (Reqb_true 0 0).
    + rewrite daysToExpiration_real by assumption.
      eexists. split; [reflexivity | lia].
  - exists 30%Z. split; [reflexivity | lia].
Qed.

(** Whatever the selected expiration and the current time, the days to
    expiration are a whole number of days, at least 1: 30 when no expiration
    is selected (or when it is 0), and otherwise the distance between the
    expiration and now rounded up to whole days, whether the expiration lies
    ahead or behind. *)
Theorem daysToExpiration_whole_days (e now : R) :
  daysToExpiration None (Fin now) = Fin 30
  /\ daysToExpiration (Some (Fin 0)) (Fin now) = Fin 30
  /\ exists z : Z,
       daysToExpiration (Some (Fin e)) (Fin now) = Fin (IZR z)
       /\ (1 <= z)%Z
       /\ (e <> 0%R ->
           (Rabs (e * 1000 - now) / 86400000 <= IZR z)%R
           /\ (IZR z < Rabs (e * 1000 - now) / 86400000 + 1 \/ z = 1%Z)).
Proof.
  split; [reflexivity |]. split.
  { unfold daysToExpiration, truthy. now rewrite (Reqb_true 0 0). }
  destruct (Req_dec_T e 0) as [-> | He].
  - exists 30%Z. split; [| split; [lia | congruence]].
    unfold daysToExpiration, truthy. now rewrite (Reqb_true 0 0).
  - rewrite daysToExpiration_real by assumption.
    replace (1000 * 60 * 60 * 24)%R with 86400000%R by lra.
    set (x := (Rabs (e * 1000 - now) / 86400000)%R).
    exists (Z.max 1 (1 - up (- x))). split; [reflexivity |].
    split; [lia |]. intros _.
    pose proof (ceil_spec x) as [Hlo Hup].
    destruct (Z.max_spec 1 (1 - up (- x))) as [[Hlt ->] | [Hge ->]].
    + split; [exact Hlo | now left].
    + split; [| now right].
      apply IZR_le in Hge. lra.
Qed.

(** An expiration [t] milliseconds behind now gives the same days to
    expiration as one [t] milliseconds ahead. *)
Theorem daysToExpiration_past_as_future (e t : R) :
  daysToExpiration (Some (Fin e)) (Fin (e * 1000 + t))
  = daysToExpiration (Some (Fin e)) (Fin (e * 1000 - t)).
Proof.
  destruct (Req_dec_T e 0) as [-> | He].
  - unfold daysToExpiration, truthy. now rewrite (Reqb_true 0 0).
  - rewrite !daysToExpiration_real by assumption.
    replace (e * 1000 - (e * 1000 + t))%R with (- t)%R by lra.
    replace (e * 1000 - (e * 1000 - t))%R with t by lra.
    now rewrite Rabs_Ropp.
Qed.

(** With the days to expiration the page computes, the premium estimate is
    a real number, at least 0.05, for every strike, every current price
    [> 0], every selected expiration and every current time: the NaN of a
    negative number of days cannot arise from the page. *)
Theorem page_premium_defined (ty : OptionType) (K cp now : R)
  (expiration : option R) :
  (0 < cp)%R ->
  let days := daysToExpiration (option_map Fin expiration) (Fin now) in
  exists r : R,
    calculateRealisticPremium ty (Fin K) (Fin cp) (Some days) = Fin r
    /\ (0.05 <= r)%R.
Proof.
  intros Hcp days.
  destruct (daysToExpiration_integer expiration now) as (z & Ez & Hz).
  unfold days. rewrite Ez. clear Ez.
  assert (0 <= IZR z)%R by (apply IZR_le in Hz; lra).
  rewrite calculateRealisticPremium_real by assumption.
  eexists. split; [reflexivity | apply Rmax_l].
Qed.

Lemma page_premium_defined_witness :
  exists r : R,
    calculateRealisticPremium call (Fin 100) (Fin 100)
      (Some (daysToExpiration (Some (Fin 1700000000)) (Fin 1800000000000)))
    = Fin r /\ (0.05 <= r)%R.
Proof.
  apply (page_premium_defined call 100 100 1800000000000 (Some 1700000000)).
  lra.
Defined.

(** ** The page: the strategy built for a template *)

(** Of the ten templates offered, seven are built by the constructor of
    the same name, the spreads on the strike and the strike plus 5, and carry
    the name of the template; the other three (Bear Put Spread, Bull Put
    Spread, Short Straddle) are built as a Long Call. *)
Theorem templates_built (K cp d : number) :
  let days := Some d in
  let longCall := createLongCallStrategy K cp days None in
  map (fun t => currentStrategy (Some t) K cp d) strategies
  = map Some
      [ longCall;
        createShortCallStrategy K cp days None;
        createLongPutStrategy K cp days None;
        createShortPutStrategy K cp days None;
        createBullCallSpreadStrategy K (K + Fin 5)%num cp days;
        createBearCallSpreadStrategy K (K + Fin 5)%num cp days;
        longCall;
        longCall;
        createLongStraddleStrategy K cp days;
        longCall ]
  /\ map templateName strategies
     = [ "Long Call"; "Short Call"; "Long Put"; "Short Put";
         "Bull Call Spread"; "Bear Call Spread"; "Bear Put Spread";
         "Bull Put Spread"; "Long Straddle"; "Short Straddle" ]%string
  /\ forall t S, In t strategies ->
       currentStrategy (Some t) K cp d = Some S ->
       (In (templateName t) unsupported_templates -> S = longCall)
       /\ (~ In (templateName t) unsupported_templates ->
           name S = templateName t).
Proof.
  intros days longCall. split; [reflexivity | split; [reflexivity |]].
  intros t S Hin E. unfold strategies in Hin.
  repeat (destruct Hin as [<- | Hin]); try contradiction.
  all: unfold currentStrategy in E; cbn [templateName] in E;
    cbn [String.eqb Ascii.eqb Bool.eqb] in E; cbv zeta in E; cbn match in E;
    injection E as <-; unfold unsupported_templates.
  all: split; intros H;
    try reflexivity;
    try (cbn in H; exfalso; intuition discriminate);
    try (exfalso; apply H; cbn; auto).
Qed.

Lemma templates_built_witness :
  map (fun t => currentStrategy (Some t) (Fin 100) (Fin 100) (Fin 30)) strategies
  = map Some
      [ createLongCallStrategy (Fin 100) (Fin 100) (Some (Fin 30)) None;
        createShortCallStrategy (Fin 100) (Fin 100) (Some (Fin 30)) None;
        createLongPutStrategy (Fin 100) (Fin 100) (Some (Fin 30)) None;
        createShortPutStrategy (Fin 100) (Fin 100) (Some (Fin 30)) None;
        createBullCallSpreadStrategy (Fin 100) (Fin 100 + Fin 5)%num (Fin 100)
          (Some (Fin 30));
        createBearCallSpreadStrategy (Fin 100) (Fin 100 + Fin 5)%num (Fin 100)
          (Some (Fin 30));
        createLongCallStrategy (Fin 100) (Fin 100) (Some (Fin 30)) None;
        createLongCallStrategy (Fin 100) (Fin 100) (Some (Fin 30)) None;
        createLongStraddleStrategy (Fin 100) (Fin 100) (Some (Fin 30));
        createLongCallStrategy (Fin 100) (Fin 100) (Some (Fin 30)) None ].
Proof.
  exact (proj1 (templates_built (Fin 100) (Fin 100) (Fin 30))).
Defined.

(** ** What the factory builds *)

(** For a current price [> 0] and days to expiration [>= 0], every leg of
    every strategy the factory builds, the premium left to it, has quantity
    1 and carries the estimate for its own type and strike; all its fields
    are real. *)
Theorem factory_legs_estimated (K1 K2 cp d : R) :
  (0 < cp)%R -> (0 <= d)%R ->
  let days := Some (Fin d) in
  Forall (fun S => Forall (estimated_leg cp d) (legs S)
                   /\ real_strategy S = true)
    [ createLongCallStrategy (Fin K1) (Fin cp) days None;
      createShortCallStrategy (Fin K1) (Fin cp) days None;
      createLongPutStrategy (Fin K1) (Fin cp) days None;
      createShortPutStrategy (Fin K1) (Fin cp) days None;
      createBullCallSpreadStrategy (Fin K1) (Fin K2) (Fin cp) days;
      createBearCallSpreadStrategy (Fin K1) (Fin K2) (Fin cp) days;
      createLongStraddleStrategy (Fin K1) (Fin cp) days ].
Proof.
  intros Hcp Hd days.
  unfold days, createLongCallStrategy, createShortCallStrategy,
    createLongPutStrategy, createShortPutStrategy,
    createBullCallSpreadStrategy, createBearCallSpreadStrategy,
    createLongStraddleStrategy, or_else, default_to.
  rewrite !calculateRealisticPremium_real by assumption.
  repeat (apply Forall_cons || apply Forall_nil); cbn [legs];
    (split; [| reflexivity]);
    repeat (apply Forall_cons || apply Forall_nil);
    eexists; cbn; repeat split.
Qed.

Lemma factory_legs_estimated_witness :
  Forall (estimated_leg 100 30)
         (legs (createLongStraddleStrategy (Fin 95) (Fin 100) (Some (Fin 30)))).
Proof.
  pose proof (factory_legs_estimated 95 105 100 30) as H.
  cbv zeta in H. rewrite Forall_forall in H.
  apply H; [lra | lra | do 6 right; now left].
Defined.

(** ** The page, end to end *)

Lemma real_strategy_stats (S : Strategy) (cp : R) :
  real_strategy S = true -> (0 < cp)%R ->
  let stats := calculateStrategyStats S (Fin cp) in
  (exists m n : R,
     maxProfit stats = Fin m /\ maxLoss stats = Fin n /\ (n <= m)%R)
  /\ StronglySorted nle (breakeven stats).
Proof.
  intros HS Hcp stats. split.
  - pose proof (generatePayoffData_finite S cp HS) as HF.
    destruct (extrema_finite _ HF) as [E | (m & n & Em & En & Hnm)].
    { apply (f_equal (@length number)) in E.
      rewrite length_map, generatePayoffData_length in E. discriminate. }
    exists m, n. unfold stats, calculateStrategyStats. cbn [maxProfit maxLoss].
    rewrite max_list_maximum, min_list_minimum, Em, En. cbn. auto.
  - unfold stats, calculateStrategyStats. cbn [breakeven].
    rewrite breakeven_loop_crossings.
    destruct (generatePayoffData_asc S cp HS Hcp) as [lo Hasc].
    now apply (asc_curve_crossings_sorted lo).
Qed.

(** Whatever template is selected, for a real strike, an underlying price
    [> 0], and any selected expiration and current time, the page builds a
    strategy all of whose fields are real; its statistics then have a finite
    maximum profit not below a finite maximum loss, breakevens in ascending
    order, and spreads are always five wide. *)
Theorem page_strategy_well_formed (t : StrategyTemplate) (K cp now : R)
  (expiration : option R) :
  (0 < cp)%R ->
  let days := daysToExpiration (option_map Fin expiration) (Fin now) in
  exists S : Strategy,
    currentStrategy (Some t) (Fin K) (Fin cp) days = Some S
    /\ real_strategy S = true
    /\ Forall (fun leg => strike leg = Fin K \/ strike leg = Fin (K + 5))
              (legs S)
    /\ (exists m n : R,
          maxProfit (strategyStats (Some S) (Fin cp)) = Fin m
          /\ maxLoss (strategyStats (Some S) (Fin cp)) = Fin n
          /\ (n <= m)%R)
    /\ StronglySorted nle (breakeven (strategyStats (Some S) (Fin cp))).
Proof.
  intros Hcp days.
  destruct (daysToExpiration_integer expiration now) as (z & Ez & Hz).
  unfold days. rewrite Ez. clear Ez.
  assert (Hz' : (0 <= IZR z)%R) by (apply IZR_le in Hz; lra).
  assert (G : exists S : Strategy,
            currentStrategy (Some t) (Fin K) (Fin cp) (Fin (IZR z)) = Some S
            /\ real_strategy S = true
            /\ Forall (fun leg => strike leg = Fin K \/ strike leg = Fin (K + 5))
                      (legs S)).
  { unfold currentStrategy. cbv zeta.
    repeat match goal with
    | |- context [String.eqb ?a ?b] => destruct (String.eqb a b)
    end;
    (eexists; split; [reflexivity |]);
    unfold createLongCallStrategy, createShortCallStrategy,
      createLongPutStrategy, createShortPutStrategy,
      createBullCallSpreadStrategy, createBearCallSpreadStrategy,
      createLongStraddleStrategy, or_else, default_to;
    cbn [nadd];
    rewrite !calculateRealisticPremium_real by assumption;
    (split; [reflexivity |]);
    cbn [legs]; repeat (apply Forall_cons || apply Forall_nil); cbn; auto. }
  destruct G as (S & E & HS & HK).
  exists S. split; [exact E | split; [exact HS | split; [exact HK |]]].
  cbn [strategyStats]. apply (real_strategy_stats S cp HS Hcp).
Qed.

Lemma page_strategy_well_formed_witness :
  exists S : Strategy,
    currentStrategy (Some (mkTemplate "Bull Call Spread" BULLISH ""))
      (Fin 100) (Fin 100)
      (daysToExpiration (Some (Fin 1700000000)) (Fin 1800000000000)) = Some S
    /\ real_strategy S = true
    /\ Forall (fun leg => strike leg = Fin 100 \/ strike leg = Fin (100 + 5))
              (legs S)
    /\ (exists m n : R,
          maxProfit (strategyStats (Some S) (Fin 100)) = Fin m
          /\ maxLoss (strategyStats (Some S) (Fin 100)) = Fin n
          /\ (n <= m)%R)
    /\ StronglySorted nle (breakeven (strategyStats (Some S) (Fin 100))).
Proof.
  apply (page_strategy_well_formed (mkTemplate "Bull Call Spread" BULLISH "")
           100 100 1800000000000 (Some 1700000000)).
  lra.
Defined.

(** ** The controls: the closest strike *)

Lemma closest_fold (up : R) (rest : list R) :
  forall a : R,
  exists k : R,
    fold_left (fun prev curr =>
                 if (Math.abs (curr - Fin up) <? Math.abs (prev - Fin up))%num
                 then curr else prev)
              (map Fin rest) (Fin a) = Fin k
    /\ In k (a :: rest)
    /\ forall s, In s (a :: rest) -> (Rabs (k - up) <= Rabs (s - up))%R.
Proof.
  induction rest as [|b rest IH]; intros a; cbn [map fold_left].
  - exists a. split; [reflexivity | split; [now left |]].
    intros s [<- | []]. lra.
  - cbn [nsub nadd nneg Math.abs nltb].
    destruct (Rlt_dec (Rabs (b + - up)) (Rabs (a + - up))) as [H | H].
    + rewrite Rltb_true by assumption.
      destruct (IH b) as (k & E & Hin & Hmin).
      exists k. split; [exact E | split].
      * destruct Hin as [<- | Hin]; [right; now left | right; now right].
      * intros s [<- | [<- | Hs]].
        -- specialize (Hmin b (or_introl eq_refl)). unfold Rminus in *. lra.
        -- apply Hmin. now left.
        -- apply Hmin. now right.
    + rewrite Rltb_false by lra.
      destruct (IH a) as (k & E & Hin & Hmin).
      exists k. split; [exact E | split].
      * destruct Hin as [<- | Hin]; [now left | right; now right].
      * intros s [<- | [<- | Hs]].
        -- apply Hmin. now left.
        -- specialize (Hmin a (or_introl eq_refl)). unfold Rminus in *. lra.
        -- apply Hmin. now right.
Qed.

(** Among real strikes, not none, the strike selected by default is one of
    them and none is closer to the underlying price; on no strike at all the
    reduction raises, which the caller excludes by testing the length. *)
Theorem closestStrike_nearest (strikes : list R) (up : R) :
  closestStrike [] (Fin up) = None
  /\ (strikes <> [] ->
      exists k : R,
        closestStrike (map Fin strikes) (Fin up) = Some (Fin k)
        /\ In k strikes
        /\ forall s, In s strikes -> (Rabs (k - up) <= Rabs (s - up))%R).
Proof.
  split; [reflexivity |]. intros HN.
  destruct strikes as [|a rest]; [congruence |].
  destruct (closest_fold up rest a) as (k & E & Hin & Hmin).
  exists k. unfold closestStrike, reduce1. cbn [map]. now rewrite E.
Qed.

Lemma closestStrike_nearest_witness :
  exists k : R,
    closestStrike (map Fin [95; 100; 105]%R) (Fin 101) = Some (Fin k)
    /\ In k [95; 100; 105]%R
    /\ forall s, In s [95; 100; 105]%R -> (Rabs (k - 101) <= Rabs (s - 101))%R.
Proof.
  apply (closestStrike_nearest [95; 100; 105]%R 101). discriminate.
Defined.

(** ** The chart: the scaled Greek *)



(** ** No NaN on real inputs *)

Lemma fold_finite (f : number -> OptionLeg -> number) (l : list OptionLeg) :
  (forall (a : R) leg, In leg l -> exists v : R, f (Fin a) leg = Fin v) ->
  forall a : R, exists v : R, fold_left f l (Fin a) = Fin v.
Proof.
  induction l as [|leg l IH]; intros Hf a; cbn [fold_left].
  - now exists a.
  - destruct (Hf a leg (or_introl eq_refl)) as [v ->].
    apply IH. intros b leg' Hin. apply Hf. now right.
Qed.

Lemma real_legs_in (S : Strategy) (leg : OptionLeg) :
  real_strategy S = true -> In leg (legs S) ->
  exists K Pr q : R,
    leg = mkLeg (type leg) (action leg) (Fin K) (Fin Pr) (Fin q).
Proof.
  unfold real_strategy. intros HS Hin.
  rewrite forallb_forall in HS. specialize (HS leg Hin).
  destruct leg as [ty ac [| | |K] [| | |Pr] [| | |q]]; try discriminate.
  now exists K, Pr, q.
Qed.

Lemma greeks_real (S : Strategy) (p cp : R) :
  real_strategy S = true -> cp <> 0%R ->
  (exists v : R, calculateDelta S (Fin p) (Fin cp) = Fin v)
  /\ (exists v : R, calculateGamma S (Fin p) (Fin cp) = Fin v)
  /\ (exists v : R,
        calculateTheta S (Fin p) (Fin cp) (Some (Fin 30)) = Fin v)
  /\ (exists v : R,
        calculateVega S (Fin p) (Fin cp) (Some (Fin 30)) = Fin v).
Proof.
  intros HS Hcp.
  unfold calculateDelta, calculateGamma, calculateTheta, calculateVega,
    default_to.
  repeat split; apply fold_finite; intros a leg Hin;
    destruct (real_legs_in S leg HS Hin) as (K & Pr & q & ->);
    unfold multiplier_of; cbn [type action strike premium quantity].
  - cbn [nsub nadd nneg nmul ndiv].
    rewrite (Reqb_false (cp * 0.1) 0) by lra.
    destruct (type leg); cbn [Math.exp nneg nadd ndiv];
      [ pose proof (exp_pos (- ((p + - K) / (cp * 0.1))))
      | pose proof (exp_pos ((p + - K) / (cp * 0.1))) ];
      rewrite Reqb_false by lra;
      destruct (action leg); cbn; eexists; reflexivity.
  - cbn [nsub nadd nneg nmul ndiv Math.abs].
    rewrite (Reqb_false (cp * 0.1) 0) by lra.
    destruct (action leg); cbn; eexists; reflexivity.
  - cbn [nsub nadd nneg nmul ndiv Math.abs].
    rewrite (Reqb_false cp 0), (Reqb_false 30 0) by lra.
    cbn [Math.sqrt]. rewrite (Rltb_false (30 / 30) 0) by lra.
    destruct (action leg); cbn; eexists; reflexivity.
  - cbn [nsub nadd nneg nmul ndiv Math.abs].
    rewrite (Reqb_false cp 0), (Reqb_false 30 0) by lra.
    cbn [Math.sqrt]. rewrite (Rltb_false (30 / 30) 0) by lra.
    destruct (action leg); cbn; eexists; reflexivity.
Qed.

(** For a strategy with real fields, a real current price other than zero
    and a real price range (or the default one), every field of every point
    of the curve is a real number: no NaN and no infinity arises. *)
Theorem curve_points_real (S : Strategy) (cp : R) (priceRange : option R) :
  real_strategy S = true -> cp <> 0%R ->
  Forall (fun pt =>
            is_finite (price pt) && is_finite (payoff pt)
            && is_finite (delta pt) && is_finite (gamma pt)
            && is_finite (theta pt) && is_finite (vega pt) = true)
         (generatePayoffData S (Fin cp) (option_map Fin priceRange)).
Proof.
  intros HS Hcp.
  assert (E : exists s h : R,
            generatePayoffData S (Fin cp) (option_map Fin priceRange)
            = map (curve_point S (Fin cp) (Fin s) (Fin h)) (seq 0 201)).
  { destruct priceRange as [pr |]; cbn [option_map]; do 2 eexists;
      [apply generatePayoffData_window | apply generatePayoffData_real]. }
  destruct E as (s & h & ->).
  apply Forall_forall. intros pt Hin. apply in_map_iff in Hin.
  destruct Hin as (i & <- & _).
  unfold curve_point, of_nat. cbn [nmul nadd].
  set (x := (s + IZR (Z.of_nat i) * h)%R).
  destruct (calculateStrategyPayoff_real S x HS) as [y Hy].
  destruct (greeks_real S x cp HS Hcp)
    as ([d Hd] & [g Hg] & [t Ht] & [v Hv]).
  cbn [price payoff delta gamma theta vega].
  now rewrite Hy, Hd, Hg, Ht, Hv.
Qed.

Lemma curve_points_real_witness :
  Forall (fun pt =>
            is_finite (price pt) && is_finite (payoff pt)
            && is_finite (delta pt) && is_finite (gamma pt)
            && is_finite (theta pt) && is_finite (vega pt) = true)
         (generatePayoffData
            (mkStrategy "Long Call" [mkLeg call buy (Fin 100) (Fin 5) (Fin 1)])
            (Fin 100) (option_map Fin None)).
Proof.
  apply (curve_points_real
           (mkStrategy "Long Call" [mkLeg call buy (Fin 100) (Fin 5) (Fin 1)])
           100 None); [reflexivity | lra].
Defined.

(** The Greek selected is read whatever the case of its name, and an
    unknown name reads Vega. *)
Example getGreekValue_names (d : CurvePoint) :
  getGreekValue d "Delta" = delta d /\ getGreekValue d "GAMMA" = gamma d
  /\ getGreekValue d "theta" = theta d /\ getGreekValue d "Vega" = vega d
  /\ getGreekValue d "Rho" = vega d.
Proof. repeat split. Qed.

Lemma daysToExpiration_whole_days_witness :
  exists z : Z,
    daysToExpiration (Some (Fin 1700000000)) (Fin 1800000000000)
    = Fin (IZR z)
    /\ (1 <= z)%Z
    /\ (1700000000%R <> 0%R ->
        (Rabs (1700000000 * 1000 - 1800000000000) / 86400000 <= IZR z)%R
        /\ (IZR z < Rabs (1700000000 * 1000 - 1800000000000) / 86400000 + 1
            \/ z = 1%Z)).
Proof.
  exact (proj2 (proj2 (daysToExpiration_whole_days 1700000000 1800000000000))).
Defined.

Lemma empty_strategy_flat_witness :
  let curve := generatePayoffData (mkStrategy "Empty Strategy" []) (Fin 100) None in
  payoff (nth 7 curve no_point) = Fin 0.
Proof.
  intros curve.
  apply (proj1 (empty_strategy_flat "Empty Strategy" (Fin 100) None)
           (nth 7 curve no_point)).
  apply nth_In. unfold curve. rewrite generatePayoffData_length. lia.
Defined.

(** * The payoff engine as it runs *)

Module B64Facts.

Import PrimFloat.
#[local] Set Warnings "-inexact-float".
#[local] Open Scope float_scope.

(** The long call of the specification, struck at 100 for a premium of 5,
    pays exactly -500 at 100 and 500 at 110. *)
Example long_call_100_5 :
  B64.calculateLegPayoff (B64.mkLeg call buy 100 5 1) 100 = -500
  /\ B64.calculateLegPayoff (B64.mkLeg call buy 100 5 1) 110 = 500.
Proof. split; vm_compute; reflexivity. Qed.

(** Three legs whose payoffs at 90.25 add up to a different number in
    another order: the order of the legs does affect the result. *)
Lemma strategy_payoff_order_matters :
  let A := B64.mkLeg call sell 110 5 1 in
  let B := B64.mkLeg put sell 105 0.2 1 in
  let C := B64.mkLeg put buy 100 0.2 1 in
  Permutation [A; B; C] [A; C; B]
  /\ B64.calculateStrategyPayoff (B64.mkStrategy "S" [A; B; C]) 90.25
     = 1.1368683772161603e-13
  /\ B64.calculateStrategyPayoff (B64.mkStrategy "S" [A; C; B]) 90.25 = 0
  /\ B64.calculateStrategyPayoff (B64.mkStrategy "S" [A; C; B]) 90.25
     <> B64.calculateStrategyPayoff (B64.mkStrategy "S" [A; B; C]) 90.25.
Proof.
  intros A B C.
  assert (E1 : B64.calculateStrategyPayoff (B64.mkStrategy "S" [A; B; C]) 90.25
               = 1.1368683772161603e-13) by (vm_compute; reflexivity).
  assert (E2 : B64.calculateStrategyPayoff (B64.mkStrategy "S" [A; C; B]) 90.25
               = 0) by (vm_compute; reflexivity).
  split; [apply perm_skip, perm_swap |].
  split; [exact E1 |]. split; [exact E2 |].
  rewrite E1, E2. intros H.
  apply (f_equal is_zero) in H. vm_compute in H. discriminate.
Qed.

(** The bull call spread on 100 and 110 at a current price of 100 with no
    day left: both premiums are the floor 0.05, the net debit is 0, and the
    payoff is [1000.0000000000001] at 120 and [999.9999999999999] at 110,
    not [(110 - 100 - 0)*100 = 1000]. *)
Lemma bull_call_spread_rounds :
  premiums (createBullCallSpreadStrategy (Fin 100%R) (Fin 110%R) (Fin 100%R)
              (Some (Fin 0%R)))
  = [Fin 0.05%R; Fin 0.05%R]
  /\ let S := B64.mkStrategy "Bull Call Spread"
                [B64.mkLeg call buy 100 0.05 1;
                 B64.mkLeg call sell 110 0.05 1] in
     B64.calculateStrategyPayoff S 120 = 1000.0000000000001
     /\ B64.calculateStrategyPayoff S 110 = 999.9999999999999
     /\ (110 - 100 - (0.05 - 0.05)) * 100 = 1000.
Proof.
  split.
  - unfold premiums, createBullCallSpreadStrategy, default_to.
    cbn [legs map].
    rewrite !calculateRealisticPremium_real by lra.
    unfold premium_formula, intrinsic.
    replace (0 / 365)%R with 0%R by lra. rewrite sqrt_0.
    rewrite !Rmult_0_r, !Rmult_0_l, !Rplus_0_r.
    replace (Rmax 0 (100 - 100))%R with 0%R
      by (unfold Rmax; destruct (Rle_dec _ _); lra).
    replace (Rmax 0 (100 - 110))%R with 0%R
      by (unfold Rmax; destruct (Rle_dec _ _); lra).
    replace (Rmax 0.05 0)%R with 0.05%R
      by (unfold Rmax; destruct (Rle_dec _ _); lra).
    reflexivity.
  - repeat split; vm_compute; reflexivity.
Qed.

End B64Facts.
